(** * Morpheus: the user-space half of the runtime, Python bindings

    A shallow embedding of
    - [morpheus_common/_morpheus_shared.py]: constants, the ctypes layout of
      the shared control block and [verify_offsets];
    - [python/morpheus/asyncio.py] and [python/morpheus_asyncio.py]: the
      stub backend, [morpheus_checkpoint], [force_yield],
      [morpheus_critical], [is_kernel_pressured], [AdaptiveCheckpointer];
    - [python/morpheus/__init__.py]: [async_checkpoint].

    Python integers are unbounded, hence [Z]; [//] is floor division, which
    is [Z.div] for the positive divisor the source uses. *)

From Stdlib Require Import ZArith List String Bool Lia.
Import ListNotations.
Local Open Scope string_scope.
Local Open Scope list_scope.
Local Open Scope Z_scope.

(** ** Exceptions and results *)

(** The exceptions the modelled code can see.  [AssertionError] carries the
    data that [verify_offsets] formats into its message. *)
Inductive assertion_msg : Type :=
| OffsetMismatch (field_name : string) (expected actual : Z)
| SizeMismatch (expected actual : Z).

Inductive exn : Type :=
| CancelledError
| AssertionError (msg : assertion_msg)
| AttributeError (name : string)
| IndexError
| RecursionError
| OtherError (code : Z).

Inductive result (A : Type) : Type :=
| Ok (a : A)
| Err (e : exn).
Arguments Ok {A} a.
Arguments Err {A} e.

(** * Shared types: [_morpheus_shared.py] *)

Module Shared.

(** ** Configuration constants, written as the source writes them *)

Definition MAX_WORKERS : Z := 1024.
Definition DEFAULT_SLICE_NS : Z := 5 * 1000000.
Definition GRACE_PERIOD_NS : Z := 100 * 1000000.
Definition RINGBUF_SIZE : Z := 256 * 1024.

(** ** Enumerations ([IntEnum] classes) *)

Inductive WorkerState : Type := INIT | REGISTERED | RUNNING | QUIESCING | DEAD.

Inductive YieldReason : Type :=
| YR_NONE | HINT | CHECKPOINT | BUDGET | YR_DEFENSIVE | ESCALATION_RECOVERY.

Definition YieldReason_value (r : YieldReason) : Z :=
  match r with
  | YR_NONE => 0
  | HINT => 1
  | CHECKPOINT => 2
  | BUDGET => 3
  | YR_DEFENSIVE => 4
  | ESCALATION_RECOVERY => 5
  end.

Inductive RuntimeMode : Type := DETERMINISTIC | PRESSURED | DEFENSIVE.

(** ** ctypes structures

    The field types the source uses: [c_uint32], [c_uint64] and arrays
    [c_uint64 * n]. *)
Inductive ctype : Type :=
| c_uint32
| c_uint64
| c_array (elem : ctype) (len : Z).

Fixpoint sizeof_ctype (t : ctype) : Z :=
  match t with
  | c_uint32 => 4
  | c_uint64 => 8
  | c_array elem len => len * sizeof_ctype elem
  end.

Fixpoint alignment (t : ctype) : Z :=
  match t with
  | c_uint32 => 4
  | c_uint64 => 8
  | c_array elem _ => alignment elem
  end.

(** A [Structure] subclass: its [_pack_] (absent when not set) and its
    [_fields_] in declaration order. *)
Record Structure : Type := {
  _pack_ : option Z;
  _fields_ : list (string * ctype)
}.

Definition round_up (n align : Z) : Z := ((n + align - 1) / align) * align.

(** Alignment of one field under the structure's packing.  ctypes reads a
    [_pack_] of 0 as no packing; a negative [_pack_] is refused when the
    class is created, so no structure has one. *)
Definition field_align (pack : option Z) (t : ctype) : Z :=
  match pack with
  | Some p => if p =? 0 then alignment t else Z.min p (alignment t)
  | None => alignment t
  end.

(** The layout ctypes computes for a structure without bit fields: every
    field goes to the next multiple of its alignment, and the total size
    is rounded up to the largest field alignment.  The accumulator is
    (next free byte, largest alignment so far, descriptors so far). *)
Record CField : Type := { cf_name : string; offset : Z; size : Z }.

Definition place (pack : option Z) (acc : Z * Z * list CField)
    (f : string * ctype) : Z * Z * list CField :=
  let '(cur, amax, done) := acc in
  let a := field_align pack (snd f) in
  let off := round_up cur a in
  (off + sizeof_ctype (snd f), Z.max amax a,
   done ++ [{| cf_name := fst f; offset := off; size := sizeof_ctype (snd f) |}]).

Definition layout (s : Structure) : Z * Z * list CField :=
  fold_left (place (_pack_ s)) (_fields_ s) (0, 1, []).

Definition descriptors (s : Structure) : list CField := snd (layout s).

Definition sizeof (s : Structure) : Z :=
  let '(cur, amax, _) := layout s in round_up cur amax.

(** [getattr(scb, field_name)]: the descriptor of a declared field, or
    [AttributeError].  Each field sets a class attribute under its name, so
    for a name declared twice the attribute is the descriptor set last. *)
Definition getattr (s : Structure) (name : string) : result CField :=
  match find (fun d => String.eqb (cf_name d) name)
          (rev (descriptors s)) with
  | Some d => Ok d
  | None => Err (AttributeError name)
  end.

Definition MorpheusScb : Structure := {|
  _pack_ := Some 8;
  _fields_ := [
    ("preempt_seq", c_uint64);
    ("budget_remaining_ns", c_uint64);
    ("kernel_pressure_level", c_uint32);
    ("worker_state", c_uint32);
    ("_reserved0", c_array c_uint64 5);
    ("is_in_critical_section", c_uint32);
    ("escapable", c_uint32);
    ("last_ack_seq", c_uint64);
    ("runtime_priority", c_uint32);
    ("last_yield_reason", c_uint32);
    ("_reserved1", c_array c_uint64 1);
    ("escalation_policy", c_uint32);
    ("_pad", c_uint32);
    ("_reserved2", c_array c_uint64 3)
  ]
|}.

Definition MorpheusHint : Structure := {|
  _pack_ := Some 8;
  _fields_ := [
    ("seq", c_uint64);
    ("reason", c_uint32);
    ("target_tid", c_uint32);
    ("deadline_ns", c_uint64)
  ]
|}.

Definition GlobalPressure : Structure := {|
  _pack_ := None;
  _fields_ := [
    ("cpu_pressure_pct", c_uint32);
    ("io_pressure_pct", c_uint32);
    ("memory_pressure_pct", c_uint32);
    ("runqueue_depth", c_uint32)
  ]
|}.

(** ** [verify_offsets] *)

(** The [expected] dict of [verify_offsets], in insertion order (the order
    the loop visits it). *)
Definition expected : list (string * Z) := [
  ("preempt_seq", 0);
  ("budget_remaining_ns", 8);
  ("kernel_pressure_level", 16);
  ("worker_state", 20);
  ("is_in_critical_section", 64);
  ("escapable", 68);
  ("last_ack_seq", 72);
  ("runtime_priority", 80);
  ("last_yield_reason", 84);
  ("escalation_policy", 96)
].

(** The [for] loop over [expected.items()]: the first mismatch raises. *)
Fixpoint check_offsets (scb : Structure) (items : list (string * Z))
    : result unit :=
  match items with
  | [] => Ok tt
  | (field_name, expected_offset) :: rest =>
      match getattr scb field_name with
      | Err e => Err e
      | Ok d =>
          let actual_offset := offset d in
          if negb (actual_offset =? expected_offset)
          then Err (AssertionError
                      (OffsetMismatch field_name expected_offset actual_offset))
          else check_offsets scb rest
      end
  end.

Definition verify_offsets_of (scb : Structure) : result bool :=
  match check_offsets scb expected with
  | Err e => Err e
  | Ok _ =>
      if negb (sizeof scb =? 128)
      then Err (AssertionError (SizeMismatch 128 (sizeof scb)))
      else Ok true
  end.

Definition verify_offsets : result bool := verify_offsets_of MorpheusScb.

(** Offset of a field by name, absent when the structure has no such
    field. *)
Definition offset_of (s : Structure) (name : string) : option Z :=
  match getattr s name with
  | Ok d => Some (offset d)
  | Err _ => None
  end.

(** The layout leaves no gap and no overlap: each field starts where the
    previous one ends, the first at 0 and the last ending at 128. *)
Fixpoint contiguous (start : Z) (fs : list CField) : bool :=
  match fs with
  | [] => true
  | f :: rest =>
      (offset f =? start)
      && contiguous (offset f + size f) rest
  end.

End Shared.

(** * Coroutines over the [_morpheus] module

    The asyncio helpers are coroutines that call methods of the module
    object [_morpheus] and suspend with [await asyncio.sleep(0)].  A
    coroutine is a finite tree: it returns, raises, calls a method and
    continues with what the call produced, or suspends and continues with
    what the event loop delivers on resumption (a plain resume, or an
    exception thrown in at the suspension point: cancellation delivers
    [CancelledError]). *)

Module _morpheus.

(** The methods the helpers call on [_morpheus]; these are the methods of
    [_MorpheusStub]. *)
Inductive method : Type :=
| checkpoint
| yield_requested
| acknowledge_yield
| enter_critical_section
| exit_critical_section
| is_in_critical_section
| pressure_level
| is_defensive_mode.

Definition ret_type (m : method) : Type :=
  match m with
  | checkpoint | yield_requested | acknowledge_yield
  | is_in_critical_section | is_defensive_mode => bool
  | enter_critical_section | exit_critical_section => unit
  | pressure_level => option Z
  end.

Definition method_eqb (a b : method) : bool :=
  match a, b with
  | checkpoint, checkpoint
  | yield_requested, yield_requested
  | acknowledge_yield, acknowledge_yield
  | enter_critical_section, enter_critical_section
  | exit_critical_section, exit_critical_section
  | is_in_critical_section, is_in_critical_section
  | pressure_level, pressure_level
  | is_defensive_mode, is_defensive_mode => true
  | _, _ => false
  end.

End _morpheus.

Abbreviation method := _morpheus.method.
Abbreviation ret_type := _morpheus.ret_type.

Inductive coro (A : Type) : Type :=
| Return (a : A)
| Raise (e : exn)
| Call (m : method) (k : result (ret_type m) -> coro A)
| Suspend (k : result unit -> coro A).
Arguments Return {A} a.
Arguments Raise {A} e.
Arguments Call {A} m k.
Arguments Suspend {A} k.

(** What an expression evaluates to, given what the environment produced
    for it: the value, or the exception raised at that point. *)
Definition of_result {A} (r : result A) : coro A :=
  match r with
  | Ok a => Return a
  | Err e => Raise e
  end.

(** [_morpheus.m()] *)
Definition call (m : method) : coro (ret_type m) := Call m of_result.

(** [await asyncio.sleep(0)] *)
Definition sleep0 : coro unit := Suspend of_result.

Fixpoint bind {A B} (p : coro A) (f : A -> coro B) : coro B :=
  match p with
  | Return a => f a
  | Raise e => Raise e
  | Call m k => Call m (fun r => bind (k r) f)
  | Suspend k => Suspend (fun r => bind (k r) f)
  end.

Declare Scope coro_scope.
Delimit Scope coro_scope with coro.
Notation "x <- p ;; q" := (bind p (fun x => q))
  (at level 100, p at next level, right associativity) : coro_scope.
Notation "p ;; q" := (bind p (fun _ => q))
  (at level 100, right associativity) : coro_scope.
Local Open Scope coro_scope.

(** [try: p finally: fin].  The [finally] block runs on every way out of
    [p]; when it completes, the outcome of [p] stands, and when it raises,
    its exception replaces that outcome. *)
Fixpoint try_finally {A} (p : coro A) (fin : coro unit) : coro A :=
  match p with
  | Return a => fin ;; Return a
  | Raise e => fin ;; Raise e
  | Call m k => Call m (fun r => try_finally (k r) fin)
  | Suspend k => Suspend (fun r => try_finally (k r) fin)
  end.

(** ** Context managers made by [@asynccontextmanager]

    The decorated generator yields once.  [cm_enter] is its code up to the
    [yield]; [cm_exit r] is its code from the [yield] on, where [r] is what
    the [yield] expression evaluates to: [Ok tt] when [__aexit__] resumes
    it after a body that completed, [Err e] when [__aexit__] throws the
    body's exception [e] into it. *)
Record context_manager : Type := {
  cm_enter : coro unit;
  cm_exit : result unit -> coro unit
}.

(** The body of [async with cm: body], followed by [__aexit__].  After a
    body that completed, the generator is resumed and the statement
    completes (or raises what the generator raises).  After a body that
    raised [e], [e] is thrown into the generator: what the generator
    raises leaves the statement, and a generator that returns suppresses
    [e]. *)
Fixpoint with_body (cm_exit : result unit -> coro unit) (body : coro unit)
    : coro unit :=
  match body with
  | Return _ => cm_exit (Ok tt)
  | Raise e => cm_exit (Err e)
  | Call m k => Call m (fun r => with_body cm_exit (k r))
  | Suspend k => Suspend (fun r => with_body cm_exit (k r))
  end.

(** [async with cm: body] *)
Definition async_with (cm : context_manager) (body : coro unit) : coro unit :=
  cm_enter cm ;; with_body (cm_exit cm) body.

(** ** Running a coroutine

    The environment of a coroutine: the object bound to [_morpheus] (each
    method call produces a value or raises, and may change the world) and
    the event loop (each suspension ends in a resume or in an exception
    thrown into the task). *)
Definition module_object (W : Type) : Type :=
  forall m : method, W -> result (ret_type m) * W.

Record environment (W : Type) : Type := {
  backend : module_object W;
  event_loop : W -> result unit * W
}.
Arguments backend {W} _ _ _.
Arguments event_loop {W} _ _.

(** What an observer sees of a run: the method calls and the suspensions,
    in order. *)
Inductive event : Type :=
| EvCall (m : method)
| EvSuspend.

Fixpoint run {W A} (env : environment W) (p : coro A) (w : W)
    : result A * list event * W :=
  match p with
  | Return a => (Ok a, [], w)
  | Raise e => (Err e, [], w)
  | Call m k =>
      let (r, w1) := backend env m w in
      let '(out, tr, w2) := run env (k r) w1 in
      (out, EvCall m :: tr, w2)
  | Suspend k =>
      let (r, w1) := event_loop env w in
      let '(out, tr, w2) := run env (k r) w1 in
      (out, EvSuspend :: tr, w2)
  end.

(** The world a method call leaves behind. *)
Definition world_after {W} (env : environment W) (m : method) (w : W) : W :=
  snd (backend env m w).

Definition event_eqb (a b : event) : bool :=
  match a, b with
  | EvCall m, EvCall n => _morpheus.method_eqb m n
  | EvSuspend, EvSuspend => true
  | _, _ => false
  end.

(** Number of occurrences of an event in a trace. *)
Definition occurrences (e : event) (tr : list event) : nat :=
  List.length (filter (event_eqb e) tr).

(** * The asyncio helpers

    [python/morpheus/asyncio.py] and [python/morpheus_asyncio.py] define
    the same helpers with the same bodies; they differ in how [_morpheus]
    gets bound at import time. *)

Module Asyncio.

(** ** The stub and the binding of [_morpheus] *)

(** [class _MorpheusStub]: no state, every method returns at once. *)
Definition _MorpheusStub (m : method) : result (ret_type m) :=
  match m with
  | _morpheus.checkpoint => Ok false
  | _morpheus.yield_requested => Ok false
  | _morpheus.acknowledge_yield => Ok false
  | _morpheus.enter_critical_section => Ok tt
  | _morpheus.exit_critical_section => Ok tt
  | _morpheus.is_in_critical_section => Ok false
  | _morpheus.pressure_level => Ok None
  | _morpheus.is_defensive_mode => Ok false
  end.

(** An instance [_MorpheusStub()] as the object bound to [_morpheus]. *)
Definition stub_object {W} : module_object W :=
  fun m w => (_MorpheusStub m, w).

(** [python/morpheus/asyncio.py], lines 14-37.  An [import] statement
    either binds a module object or raises [ImportError] ([None] here).
<<
    try: import _morpheus
    except ImportError:
        try: import morpheus as _morpheus
        except ImportError: _morpheus = None
    if _morpheus is None: _morpheus = _MorpheusStub()
>> *)
Definition bind_morpheus {W}
    (import__morpheus import_morpheus : option (module_object W))
    : module_object W :=
  let _morpheus :=
    match import__morpheus with
    | Some native => Some native
    | None =>
        match import_morpheus with
        | Some legacy => Some legacy
        | None => None
        end
    end in
  match _morpheus with
  | None => stub_object
  | Some found => found
  end.

(** [python/morpheus_asyncio.py], lines 28-41.
<<
    try: import morpheus as _morpheus
    except ImportError: _morpheus = _MorpheusStub()
>> *)
Definition bind_morpheus_legacy {W}
    (import_morpheus : option (module_object W)) : module_object W :=
  match import_morpheus with
  | Some native => native
  | None => stub_object
  end.

(** ** The helpers *)

(** [async def morpheus_checkpoint() -> bool] *)
Definition morpheus_checkpoint : coro bool :=
  c <- call _morpheus.checkpoint ;;
  if c then
    call _morpheus.acknowledge_yield ;;
    sleep0 ;;
    Return true
  else Return false.

(** [async def force_yield() -> None] *)
Definition force_yield : coro unit :=
  call _morpheus.acknowledge_yield ;;
  sleep0.

(** [@asynccontextmanager async def morpheus_critical()]: the generator
<<
    _morpheus.enter_critical_section()
    try:
        yield
    finally:
        _morpheus.exit_critical_section()
>> *)
Definition morpheus_critical : context_manager := {|
  cm_enter := call _morpheus.enter_critical_section;
  cm_exit := fun yielded =>
    try_finally (of_result yielded) (call _morpheus.exit_critical_section)
|}.

(** [k] scopes around [body], one inside the other. *)
Fixpoint nested_critical (k : nat) (body : coro unit) : coro unit :=
  match k with
  | O => body
  | S k' => async_with morpheus_critical (nested_critical k' body)
  end.

(** [def is_kernel_pressured(threshold: int = 50) -> bool].  [and] is
    short-circuit: the comparison is evaluated only for a present level. *)
Definition is_kernel_pressured (threshold : Z) : coro bool :=
  level <- call _morpheus.pressure_level ;;
  Return (match level with
          | None => false
          | Some l => l >? threshold
          end).

Definition default_threshold : Z := 50.

(** The call [is_kernel_pressured()], the argument left to its default. *)
Definition is_kernel_pressured_default : coro bool :=
  is_kernel_pressured default_threshold.

(** [def is_defensive_mode() -> bool] *)
Definition is_defensive_mode : coro bool :=
  call _morpheus.is_defensive_mode.

(** ** [class AdaptiveCheckpointer] *)

Record AdaptiveCheckpointer : Type := {
  min_interval : Z;
  max_interval : Z;
  _last_check : Z
}.

(** [__init__(self, min_interval=100, max_interval=10000)] *)
Definition __init__ (min_interval max_interval : Z) : AdaptiveCheckpointer :=
  {| min_interval := min_interval;
     max_interval := max_interval;
     _last_check := 0 |}.

Definition default_checkpointer : AdaptiveCheckpointer := __init__ 100 10000.

(** [x or 0] for an optional integer: [None] and [0] are the falsy
    values. *)
Definition or_0 (x : option Z) : Z :=
  match x with
  | None => 0
  | Some v => if v =? 0 then 0 else v
  end.

(** The expression bound to [interval] in [should_check]. *)
Definition interval (self : AdaptiveCheckpointer) (pressure : Z) : Z :=
  max_interval self -
  ((max_interval self - min_interval self) * pressure / 100).

(** [def should_check(self, iteration: int) -> bool].  The method mutates
    [self]; the coroutine returns the answer with the object as the call
    leaves it. *)
Definition should_check (self : AdaptiveCheckpointer) (iteration : Z)
    : coro (bool * AdaptiveCheckpointer) :=
  level <- call _morpheus.pressure_level ;;
  let pressure := or_0 level in
  let interval := interval self pressure in
  if iteration - _last_check self >=? interval then
    Return (true, {| min_interval := min_interval self;
                     max_interval := max_interval self;
                     _last_check := iteration |})
  else Return (false, self).

(** What [should_check] answers and leaves in [self], given the pressure
    the runtime reports. *)
Definition should_check_answer (self : AdaptiveCheckpointer)
    (iteration pressure : Z) : bool * AdaptiveCheckpointer :=
  if iteration - _last_check self >=? interval self pressure
  then (true, {| min_interval := min_interval self;
                 max_interval := max_interval self;
                 _last_check := iteration |})
  else (false, self).

End Asyncio.

(** * [python/morpheus/__init__.py] *)

Module Package.


End Package.

(** * The native runtime behind [_morpheus] *)

Module Native.

(** Modelled from the spec: the native extension module that [_morpheus]
    names when it is importable (the checkpoint engine, the critical
    section counter and the pressure query) is not among the Python
    sources.  The definitions of this module follow sections 3.1, 4.3, 4.4,
    4.5, 6.2 and 7 of the specification.  The worker's view of its control
    block holds the fields those operations read and write; the re-entrancy
    count is the natural number that "increments" and "decrements"
    describe (the specification says nothing about the top of the range of
    the 4-byte field, and nothing is modelled there). *)
Record Scb : Type := {
  preempt_seq : Z;
  kernel_pressure_level : Z;
  is_in_critical_section : N;
  last_ack_seq : Z;
  last_yield_reason : Shared.YieldReason
}.

(** Modelled from the spec: the per-thread runtime state.  [slot] is the
    control block the calling thread is bound to, absent on a thread that
    never registered; [mode] is the state of section 4.5; [underflows] is
    the diagnostic counter of section 7. *)
Record Runtime : Type := {
  slot : option Scb;
  mode : Shared.RuntimeMode;
  underflows : Z
}.

(** Modelled from the spec: the runtime with its control block replaced. *)
Definition with_slot (rt : Runtime) (s : Scb) : Runtime :=
  {| slot := Some s; mode := mode rt; underflows := underflows rt |}.

(** Modelled from the spec: invariant I1, a yield is required iff the two
    sequences differ. *)
Definition yield_required (s : Scb) : bool :=
  negb (preempt_seq s =? last_ack_seq s).

(** Modelled from the spec: the runtime is in the DEFENSIVE state. *)
Definition is_defensive (rt : Runtime) : bool :=
  match mode rt with
  | Shared.DEFENSIVE => true
  | _ => false
  end.

(** Modelled from the spec: [checkpoint()] is true iff a yield is required
    (or the runtime is in defensive mode) and the thread is not in a
    critical section; false on an unregistered thread; it changes
    nothing. *)
Definition checkpoint (rt : Runtime) : bool :=
  match slot rt with
  | None => false
  | Some s =>
      (yield_required s || is_defensive rt)
      && (is_in_critical_section s =? 0)%N
  end.

(** Modelled from the spec: [acknowledge_yield()] copies [preempt_seq]
    into [last_ack_seq], records the reason of the yield and answers
    whether a yield was outstanding. *)
Definition acknowledge_yield (rt : Runtime) : bool * Runtime :=
  match slot rt with
  | None => (false, rt)
  | Some s =>
      (yield_required s,
       with_slot rt
         {| preempt_seq := preempt_seq s;
            kernel_pressure_level := kernel_pressure_level s;
            is_in_critical_section := is_in_critical_section s;
            last_ack_seq := preempt_seq s;
            last_yield_reason :=
              if is_defensive rt then Shared.YR_DEFENSIVE else Shared.HINT |})
  end.

(** Modelled from the spec: a store to [is_in_critical_section]. *)
Definition set_critical (s : Scb) (n : N) : Scb :=
  {| preempt_seq := preempt_seq s;
     kernel_pressure_level := kernel_pressure_level s;
     is_in_critical_section := n;
     last_ack_seq := last_ack_seq s;
     last_yield_reason := last_yield_reason s |}.

(** Modelled from the spec: entry increments the count. *)
Definition enter_critical_section (rt : Runtime) : Runtime :=
  match slot rt with
  | None => rt
  | Some s => with_slot rt (set_critical s (is_in_critical_section s + 1)%N)
  end.

(** Modelled from the spec: exit decrements the count; an exit without a
    matching entry leaves the count at zero and counts an underflow. *)
Definition exit_critical_section (rt : Runtime) : Runtime :=
  match slot rt with
  | None => rt
  | Some s =>
      if (is_in_critical_section s =? 0)%N
      then {| slot := Some (set_critical s 0%N);
              mode := mode rt;
              underflows := underflows rt + 1 |}
      else with_slot rt (set_critical s (is_in_critical_section s - 1)%N)
  end.

(** Modelled from the spec: the re-entrancy count of the calling thread
    (zero when unbound). *)
Definition critical_count (rt : Runtime) : N :=
  match slot rt with
  | None => 0%N
  | Some s => is_in_critical_section s
  end.

(** Modelled from the spec: the module object of the native runtime; each
    query answers "absent" or the neutral value on an unbound thread, and
    no method raises. *)
Definition native_object {X} (get : X -> Runtime) (put : X -> Runtime -> X)
    : module_object X :=
  fun m w =>
    let rt := get w in
    match m with
    | _morpheus.checkpoint => (Ok (checkpoint rt), w)
    | _morpheus.yield_requested =>
        (Ok (match slot rt with
             | None => false
             | Some s => yield_required s
             end), w)
    | _morpheus.acknowledge_yield =>
        let (b, rt') := acknowledge_yield rt in (Ok b, put w rt')
    | _morpheus.enter_critical_section =>
        (Ok tt, put w (enter_critical_section rt))
    | _morpheus.exit_critical_section =>
        (Ok tt, put w (exit_critical_section rt))
    | _morpheus.is_in_critical_section => (Ok (0 <? critical_count rt)%N, w)
    | _morpheus.pressure_level =>
        (Ok (option_map kernel_pressure_level (slot rt)), w)
    | _morpheus.is_defensive_mode => (Ok (is_defensive rt), w)
    end.

End Native.

(** * A scripted world for concrete runs

    The world of a test run: the runtime state of the thread, and the
    deliveries the event loop will make at the suspensions to come (a plain
    resume once the script is used up). *)

Module Script.

Record world : Type := {
  runtime : Native.Runtime;
  deliveries : list (result unit)
}.

Definition put_runtime (w : world) (rt : Native.Runtime) : world :=
  {| runtime := rt; deliveries := deliveries w |}.

Definition scripted_loop (w : world) : result unit * world :=
  match deliveries w with
  | [] => (Ok tt, w)
  | d :: rest => (d, {| runtime := runtime w; deliveries := rest |})
  end.

(** The native runtime under the scripted event loop. *)
Definition native_env : environment world := {|
  backend := Native.native_object runtime put_runtime;
  event_loop := scripted_loop
|}.

(** The stub under the scripted event loop: what both files bind when no
    import succeeds. *)
Definition stub_env : environment world := {|
  backend := Asyncio.bind_morpheus None None;
  event_loop := scripted_loop
|}.

Definition scb0 (seq ack : Z) (crit : N) (pressure : Z) : Native.Scb := {|
  Native.preempt_seq := seq;
  Native.kernel_pressure_level := pressure;
  Native.is_in_critical_section := crit;
  Native.last_ack_seq := ack;
  Native.last_yield_reason := Shared.YR_NONE
|}.

(** A registered worker with the given control block. *)
Definition bound (s : Native.Scb) (script : list (result unit)) : world := {|
  runtime := {| Native.slot := Some s;
                Native.mode := Shared.PRESSURED;
                Native.underflows := 0 |};
  deliveries := script
|}.

(** A thread that never registered. *)
Definition unbound (script : list (result unit)) : world := {|
  runtime := {| Native.slot := None;
                Native.mode := Shared.DETERMINISTIC;
                Native.underflows := 0 |};
  deliveries := script
|}.

End Script.

(** * Further code of the repository

    The definitions from here to the properties embed code that the
    properties of the second part are about: callers of the helpers, the
    event-loop wrappers and the runner. *)

(** ** Structures derived from [MorpheusScb] *)

Module Layouts.

(** The structure with the field [name] left out of [_fields_]. *)
Definition without_field (name : string) (s : Shared.Structure)
    : Shared.Structure := {|
  Shared._pack_ := Shared._pack_ s;
  Shared._fields_ :=
    filter (fun f => negb (String.eqb (fst f) name)) (Shared._fields_ s)
|}.

(** The structure with another [_pack_]. *)
Definition with_pack (pack : option Z) (s : Shared.Structure)
    : Shared.Structure := {|
  Shared._pack_ := pack;
  Shared._fields_ := Shared._fields_ s
|}.

(** The cache line (64 bytes) a byte offset falls in. *)
Definition cache_line (byte : Z) : Z := byte / 64.

(** A field lies within one cache line. *)
Definition within_one_line (f : Shared.CField) : bool :=
  cache_line (Shared.offset f)
  =? cache_line (Shared.offset f + Shared.size f - 1).

(** What [verify_offsets] requires of one entry of [expected]. *)
Definition at_expected_offset (scb : Shared.Structure) (item : string * Z)
    : Prop :=
  Shared.offset_of scb (fst item) = Some (snd item).

End Layouts.

(** ** A module object with fixed answers

    An object whose methods answer the same way on every call and leave
    the world alone; a method may be set to raise. *)

Module Fixed.

Record answers : Type := {
  on_checkpoint : result bool;
  on_yield_requested : result bool;
  on_acknowledge_yield : result bool;
  on_enter_critical_section : result unit;
  on_exit_critical_section : result unit;
  on_is_in_critical_section : result bool;
  on_pressure_level : result (option Z);
  on_is_defensive_mode : result bool
}.

Definition answer (a : answers) (m : method) : result (ret_type m) :=
  match m with
  | _morpheus.checkpoint => on_checkpoint a
  | _morpheus.yield_requested => on_yield_requested a
  | _morpheus.acknowledge_yield => on_acknowledge_yield a
  | _morpheus.enter_critical_section => on_enter_critical_section a
  | _morpheus.exit_critical_section => on_exit_critical_section a
  | _morpheus.is_in_critical_section => on_is_in_critical_section a
  | _morpheus.pressure_level => on_pressure_level a
  | _morpheus.is_defensive_mode => on_is_defensive_mode a
  end.

Definition object {W} (a : answers) : module_object W :=
  fun m w => (answer a m, w).

(** The environment of that object under an event loop that always
    resumes. *)
Definition env (a : answers) : environment unit := {|
  backend := object a;
  event_loop := fun w => (Ok tt, w)
|}.

(** All methods return; a hint is pending and the pressure is [p]. *)
Definition hinted (p : Z) : answers := {|
  on_checkpoint := Ok true;
  on_yield_requested := Ok true;
  on_acknowledge_yield := Ok true;
  on_enter_critical_section := Ok tt;
  on_exit_critical_section := Ok tt;
  on_is_in_critical_section := Ok false;
  on_pressure_level := Ok (Some p);
  on_is_defensive_mode := Ok false
|}.

(** As [hinted], with [acknowledge_yield] raising. *)
Definition acknowledge_raises (e : exn) : answers := {|
  on_checkpoint := Ok true;
  on_yield_requested := Ok true;
  on_acknowledge_yield := Err e;
  on_enter_critical_section := Ok tt;
  on_exit_critical_section := Ok tt;
  on_is_in_critical_section := Ok false;
  on_pressure_level := Ok (Some 0);
  on_is_defensive_mode := Ok false
|}.

(** As [hinted], with [checkpoint] raising. *)
Definition checkpoint_raises (e : exn) : answers := {|
  on_checkpoint := Err e;
  on_yield_requested := Ok true;
  on_acknowledge_yield := Ok true;
  on_enter_critical_section := Ok tt;
  on_exit_critical_section := Ok tt;
  on_is_in_critical_section := Ok false;
  on_pressure_level := Ok (Some 0);
  on_is_defensive_mode := Ok false
|}.

(** As [hinted], with [enter_critical_section] raising. *)
Definition enter_raises (e : exn) : answers := {|
  on_checkpoint := Ok true;
  on_yield_requested := Ok true;
  on_acknowledge_yield := Ok true;
  on_enter_critical_section := Err e;
  on_exit_critical_section := Ok tt;
  on_is_in_critical_section := Ok false;
  on_pressure_level := Ok (Some 0);
  on_is_defensive_mode := Ok false
|}.

End Fixed.

(** ** Call sequences and example callers *)

Module Usage.

Import Asyncio.

(** The iterations [first], [first + 1], ... of a [for i in range(...)]
    loop, [n] of them. *)
Fixpoint iterations (first : Z) (n : nat) : list Z :=
  match n with
  | O => []
  | S n' => first :: iterations (first + 1) n'
  end.

(** The calls [should_check(first)], [should_check(first + 1)], ... on one
    [AdaptiveCheckpointer], [n] of them, as the loop
    [for i in range(n): if checker.should_check(i): ...] makes them.  The
    result lists the iterations for which the answer was [True], with the
    object as the last call leaves it. *)
Fixpoint should_check_sweep (n : nat) (iteration : Z)
    (self : AdaptiveCheckpointer) : coro (list Z * AdaptiveCheckpointer) :=
  match n with
  | O => Return ([], self)
  | S n' =>
      r <- should_check self iteration ;;
      rest <- should_check_sweep n' (iteration + 1) (snd r) ;;
      Return ((if fst r then [iteration] else []) ++ fst rest, snd rest)
  end.

(** The iterations at which a pacer with interval [ival] answers [True]
    when swept from a fresh object: the positive multiples of [ival]. *)
Definition fires_at (ival : Z) (i : Z) : bool :=
  (0 <? i) && (i mod ival =? 0).

(** Where the cursor stands before iteration [i] of a sweep: on a
    multiple of the interval, behind [i] by at most one interval. *)
Definition cursor_in_step (ival i last : Z) : Prop :=
  0 <= last /\ last mod ival = 0 /\
  ((i = 0 /\ last = 0) \/ (last < i <= last + ival)).

(** The sum of a list of integers. *)
Definition total_of (l : list Z) : Z := fold_right Z.add 0 l.

(** [examples/fastapi_app.py], [work]:
<<
    total = 0
    for i in range(10000):
        total += i
        if i % 100 == 0:
            await asyncio.sleep(0)
    return {"total": total}
>>
    [work_loop n i total] is the loop from iteration [i] on with [n]
    iterations to go; the returned dict has the one key ["total"]. *)
Fixpoint work_loop (n : nat) (i total : Z) : coro Z :=
  match n with
  | O => Return total
  | S n' =>
      let total := total + i in
      (if i mod 100 =? 0 then sleep0 else Return tt) ;;
      work_loop n' (i + 1) total
  end.

Definition work : coro Z := work_loop (Z.to_nat 10000) 0 0.

(** [examples/celery_worker.py], [batch_process]. *)
Record processed_item : Type := {
  item : Z;
  processed : bool;
  value : Z
}.

Record batch_result : Type := {
  processed_count : Z;
  results : list processed_item
}.

(** [max(1, 100 - pressure)] *)
Definition checkpoint_interval (pressure : Z) : Z := Z.max 1 (100 - pressure).

(** The loop [for idx, item in enumerate(items)], from index [idx] on.
<<
    result = {'item': item, 'processed': True, 'value': item * 2}
    results.append(result)
    pressure = pressure_level() or 0
    checkpoint_interval = max(1, 100 - pressure)
    if idx % checkpoint_interval == 0:
        checkpoint()
>> *)
Fixpoint batch_loop (items : list Z) (idx : Z)
    (results : list processed_item) : coro (list processed_item) :=
  match items with
  | [] => Return results
  | item :: rest =>
      let result := {| item := item; processed := true; value := item * 2 |} in
      let results := results ++ [result] in
      level <- call _morpheus.pressure_level ;;
      let pressure := or_0 level in
      let checkpoint_interval := checkpoint_interval pressure in
      (if idx mod checkpoint_interval =? 0
       then call _morpheus.checkpoint ;; Return tt
       else Return tt) ;;
      batch_loop rest (idx + 1) results
  end.

(** The queries [batch_process] makes return in every world (they may
    answer anything). *)
Definition answers_queries {W} (env : environment W) : Prop :=
  (forall v, exists l, fst (backend env _morpheus.pressure_level v) = Ok l) /\
  (forall v, exists b, fst (backend env _morpheus.checkpoint v) = Ok b).

(** [def batch_process(items: list)] *)
Definition batch_process (items : list Z) : coro batch_result :=
  results <- batch_loop items 0 [] ;;
  Return {| processed_count := Z.of_nat (List.length results);
            results := results |}.

End Usage.

(** ** The runner: [python/morpheus/run.py] *)

Module Runner.

(** What [main] does to the process, in order. *)
Inductive action : Type :=
| Print (text : string)
| InstallLoop
| SetArgv (argv : list string)
| RunModule (target : string)
| RunPath (target : string).

(** How [main] ends: a [SystemExit] leaving it (raised by [sys.exit(code)]
    in [main] or in the target), a return, or another exception. *)
Inductive ending : Type :=
| SystemExit (code : Z)
| Returned
| Raised (e : exn).

(** How the target run by [runpy] ends ([runpy] and the target are outside
    the repository): it returns, raises, or calls [sys.exit(code)]. *)
Inductive target_ending : Type :=
| TargetReturned
| TargetRaised (e : exn)
| TargetExited (code : Z).

(** The [try] around the target re-raises what it catches ([except
    Exception as e: raise e]) and does not catch [SystemExit], so [main]
    ends as the target ends. *)
Definition ends_as (target : target_ending) : ending :=
  match target with
  | TargetReturned => Returned
  | TargetRaised e => Raised e
  | TargetExited code => SystemExit code
  end.

Definition usage : string := "Usage: python -m morpheus.run <script> [args]".
Definition missing_module : string := "Error: -m requires a module name".

(** [def main()].  [sys_argv] is [sys.argv] on entry and [target] is how
    the target ends when it is run.  The first statement builds an
    [argparse.ArgumentParser], which reads [sys.argv[0]] for its program
    name: with an empty [sys.argv] that is an [IndexError]; the parser is
    never asked to parse, so it has no other part here.  [args[1]] is read
    only when [len(args) >= 2]. *)
Definition main (sys_argv : list string) (target : target_ending)
    : list action * ending :=
  match sys_argv with
  | [] => ([], Raised IndexError)
  | _ :: _ =>
      let args := skipn 1 sys_argv in
      if (List.length args =? 0)%nat then ([Print usage], SystemExit 1)
      else
        let first := nth 0 args "" in
        let prologue :=
          if String.eqb first "-m" then
            if (List.length args <? 2)%nat then None
            else Some (true, nth 1 args "", skipn 2 args)
          else Some (false, first, skipn 1 args) in
        match prologue with
        | None => ([Print missing_module], SystemExit 1)
        | Some (is_module, target_name, script_args) =>
            ([InstallLoop;
              SetArgv ([target_name] ++ script_args);
              if is_module then RunModule target_name
              else RunPath target_name],
             ends_as target)
        end
  end.

End Runner.

(** ** The event-loop wrapper of [python/morpheus/asyncio.py] *)

Module LoopWrapper.

(** [asyncio.Handle] objects, told apart by identity. *)
Definition Handle : Type := nat.

(** [class _MorpheusEventLoop]: the attribute the methods change;
    [_inner] is part of the environment. *)
Record _MorpheusEventLoop : Type := {
  _check_handle : option Handle
}.

(** [__init__]: [self._check_handle = None] *)
Definition __init__ : _MorpheusEventLoop := {| _check_handle := None |}.

(** The inner loop, as far as the wrapper uses it.  While it runs, the
    inner loop executes callbacks, among them the wrapper's own, so a run
    may change the wrapper. *)
Record inner_loop (W V : Type) : Type := {
  call_soon : W -> result Handle * W;
  cancel : Handle -> W -> result unit * W;
  run_forever_inner :
    _MorpheusEventLoop -> W -> result V * _MorpheusEventLoop * W;
  run_until_complete_inner :
    _MorpheusEventLoop -> W -> result V * _MorpheusEventLoop * W
}.
Arguments call_soon {W V} _ _.
Arguments cancel {W V} _ _ _.
Arguments run_forever_inner {W V} _ _ _.
Arguments run_until_complete_inner {W V} _ _ _.

Inductive loop_event : Type :=
| LvCheckpoint
| LvCallSoon (r : result Handle)
| LvCancel (h : Handle)
| LvInnerRun.

Section Methods.

Context {W V : Type} (morpheus : module_object W) (inner : inner_loop W V).

(** [self._check_handle = self._inner.call_soon(self._check_and_reschedule)] *)
Definition _schedule_check (self : _MorpheusEventLoop) (w : W)
    : result unit * list loop_event * _MorpheusEventLoop * W :=
  let (r, w1) := call_soon inner w in
  match r with
  | Ok h => (Ok tt, [LvCallSoon r], {| _check_handle := Some h |}, w1)
  | Err e => (Err e, [LvCallSoon r], self, w1)
  end.

(** [if self._check_handle: self._check_handle.cancel();
     self._check_handle = None] *)
Definition _cancel_check (self : _MorpheusEventLoop) (w : W)
    : result unit * list loop_event * _MorpheusEventLoop * W :=
  match _check_handle self with
  | Some h =>
      let (r, w1) := cancel inner h w in
      match r with
      | Ok _ => (Ok tt, [LvCancel h], {| _check_handle := None |}, w1)
      | Err e => (Err e, [LvCancel h], self, w1)
      end
  | None => (Ok tt, [], self, w)
  end.

(** [_morpheus.checkpoint(); self._schedule_check()] *)
Definition _check_and_reschedule (self : _MorpheusEventLoop) (w : W)
    : result unit * list loop_event * _MorpheusEventLoop * W :=
  let (r, w1) := morpheus _morpheus.checkpoint w in
  match r with
  | Ok _ =>
      let '(r2, tr, self2, w2) := _schedule_check self w1 in
      (r2, LvCheckpoint :: tr, self2, w2)
  | Err e => (Err e, [LvCheckpoint], self, w1)
  end.

(** The shape shared by [run_forever] and [run_until_complete]:
<<
    self._schedule_check()
    try:
        return self._inner.run(...)
    finally:
        self._cancel_check()
>> *)
Definition guarded_run
    (run_inner : _MorpheusEventLoop -> W
                 -> result V * _MorpheusEventLoop * W)
    (self : _MorpheusEventLoop) (w : W)
    : result V * list loop_event * _MorpheusEventLoop * W :=
  let '(r, tr, self1, w1) := _schedule_check self w in
  match r with
  | Err e => (Err e, tr, self1, w1)
  | Ok _ =>
      let '(out, self2, w2) := run_inner self1 w1 in
      let '(fr, ftr, self3, w3) := _cancel_check self2 w2 in
      (match fr with Ok _ => out | Err e => Err e end,
       tr ++ [LvInnerRun] ++ ftr, self3, w3)
  end.

Definition run_forever := guarded_run (run_forever_inner inner).

Definition run_until_complete := guarded_run (run_until_complete_inner inner).

(** The callback run [k] times in a row, each run from the state the
    previous one left (stopping at the first run that raises). *)
Fixpoint callbacks (k : nat) (self : _MorpheusEventLoop) (w : W)
    : result unit * list loop_event * _MorpheusEventLoop * W :=
  match k with
  | O => (Ok tt, [], self, w)
  | S k' =>
      let '(r, tr, self1, w1) := _check_and_reschedule self w in
      match r with
      | Err e => (Err e, tr, self1, w1)
      | Ok _ =>
          let '(r2, tr2, self2, w2) := callbacks k' self1 w1 in
          (r2, tr ++ tr2, self2, w2)
      end
  end.

End Methods.

(** A concrete inner loop for test runs: handles are numbered in the order
    [call_soon] hands them out, the world is the next free number with the
    cancelled handles, and a run of the loop executes the wrapper's
    callback [k] times before it ends as [ending] says. *)
Record loop_world : Type := {
  next_handle : Handle;
  cancelled : list Handle;
  checkpoints : nat
}.

Definition counting_checkpoint : module_object loop_world :=
  fun m w =>
    (Asyncio._MorpheusStub m,
     match m with
     | _morpheus.checkpoint =>
         {| next_handle := next_handle w;
            cancelled := cancelled w;
            checkpoints := S (checkpoints w) |}
     | _ => w
     end).

Definition numbering_call_soon (w : loop_world) : result Handle * loop_world :=
  (Ok (next_handle w),
   {| next_handle := S (next_handle w);
      cancelled := cancelled w;
      checkpoints := checkpoints w |}).

Definition recording_cancel (h : Handle) (w : loop_world)
    : result unit * loop_world :=
  (Ok tt,
   {| next_handle := next_handle w;
      cancelled := h :: cancelled w;
      checkpoints := checkpoints w |}).

Definition test_loop (k : nat) (ending : result unit)
    : inner_loop loop_world unit :=
  let run := fun self w =>
    let '(_, _, self1, w1) :=
      callbacks counting_checkpoint
        {| call_soon := numbering_call_soon;
           cancel := recording_cancel;
           run_forever_inner := fun s v => (ending, s, v);
           run_until_complete_inner := fun s v => (ending, s, v) |}
        k self w in
    (ending, self1, w1) in
  {| call_soon := numbering_call_soon;
     cancel := recording_cancel;
     run_forever_inner := run;
     run_until_complete_inner := run |}.

End LoopWrapper.

(** ** The event-loop wrapper of [python/morpheus_asyncio.py] *)

Module LegacyLoop.

Inductive step : Type :=
| Backend (m : method)
| InnerRunOnce.

Section Methods.

(** Clock readings are floats; their subtraction and comparison stay
    abstract. *)
Context {T : Type} (sub : T -> T -> T) (geb : T -> T -> bool).

(** [class _MorpheusEventLoop]: [_check_interval] and [_last_check]. *)
Record _MorpheusEventLoop : Type := {
  _check_interval : T;
  _last_check : T
}.

Context {W V : Type} (morpheus : module_object W)
        (monotonic : W -> T * W) (inner_run_once : W -> result V * W).

(** [return self._inner._run_once()] *)
Definition delegate (tr : list step) (self : _MorpheusEventLoop) (w : W)
    : result V * list step * _MorpheusEventLoop * W :=
  let (r, w1) := inner_run_once w in (r, tr ++ [InnerRunOnce], self, w1).

(** [def _run_once(self)]
<<
    now = time.monotonic()
    if now - self._last_check >= self._check_interval:
        self._last_check = now
        if _morpheus.checkpoint():
            _morpheus.acknowledge_yield()
    return self._inner._run_once()
>> *)
Definition _run_once (self : _MorpheusEventLoop) (w : W)
    : result V * list step * _MorpheusEventLoop * W :=
  let (now, w0) := monotonic w in
  if geb (sub now (_last_check self)) (_check_interval self) then
    let self1 := {| _check_interval := _check_interval self;
                    _last_check := now |} in
    let (c, w1) := morpheus _morpheus.checkpoint w0 in
    match c with
    | Err e => (Err e, [Backend _morpheus.checkpoint], self1, w1)
    | Ok true =>
        let (a, w2) := morpheus _morpheus.acknowledge_yield w1 in
        match a with
        | Err e =>
            (Err e,
             [Backend _morpheus.checkpoint;
              Backend _morpheus.acknowledge_yield], self1, w2)
        | Ok _ =>
            delegate [Backend _morpheus.checkpoint;
                      Backend _morpheus.acknowledge_yield] self1 w2
        end
    | Ok false => delegate [Backend _morpheus.checkpoint] self1 w1
    end
  else delegate [] self w0.

End Methods.

End LegacyLoop.

(** * What the import statements resolve to *)

(** [bind_morpheus] and [bind_morpheus_legacy] take the outcome of each
    import statement as an argument.  This module gives the outcomes the
    statements have when the two files are imported the way the
    repository lays them out: [python/morpheus/asyncio.py] as the
    submodule [morpheus.asyncio] of the package [python/morpheus], and
    [python/morpheus_asyncio.py] as a top-level module next to that
    package. *)

Module Imports.

(** The name an expression [_morpheus.<name>()] looks up. *)
Definition __name__ (m : method) : string :=
  match m with
  | _morpheus.checkpoint => "checkpoint"
  | _morpheus.yield_requested => "yield_requested"
  | _morpheus.acknowledge_yield => "acknowledge_yield"
  | _morpheus.enter_critical_section => "enter_critical_section"
  | _morpheus.exit_critical_section => "exit_critical_section"
  | _morpheus.is_in_critical_section => "is_in_critical_section"
  | _morpheus.pressure_level => "pressure_level"
  | _morpheus.is_defensive_mode => "is_defensive_mode"
  end.

(** The package module [morpheus] ([python/morpheus/__init__.py]) as the
    object an expression [_morpheus.<name>()] is evaluated on: attribute
    lookup, then the call.
<<
    from .asyncio import (morpheus_checkpoint, ..., is_defensive_mode, ...)
    try:
        from _morpheus import (init_worker, checkpoint, yield_requested,
            yield_now_async, acknowledge_yield, pressure_level, ...,
            is_in_critical_section, ..., enter_critical_section,
            exit_critical_section, ...)
    except ImportError:
        pass
>>
    [native] is what [import _morpheus] finds ([None]: ImportError).  Seven
    of the eight names are attributes of the package only if the native
    import succeeded; looking up a name a module does not have raises
    AttributeError.  The eighth, [is_defensive_mode], is always an
    attribute: line 12 binds it to the helper of [asyncio.py],
<<
    def is_defensive_mode() -> bool:
        return _morpheus.is_defensive_mode()
>>
    whose [_morpheus] is the global of [asyncio.py], bound by
    [Asyncio.bind_morpheus]; inside the package the second import
    statement of that binding finds the package itself.  [frames] is the
    number of frames left below the interpreter's recursion limit: a call
    with none left raises RecursionError. *)
Fixpoint package {W} (native : option (module_object W)) (frames : nat)
    : module_object W :=
  fun m =>
    match m return W -> result (ret_type m) * W with
    | _morpheus.is_defensive_mode =>
        match frames with
        | O => fun w => (Err RecursionError, w)
        | S frames' =>
            Asyncio.bind_morpheus native (Some (package native frames'))
              _morpheus.is_defensive_mode
        end
    | m' =>
        match native with
        | Some found => found m'
        | None => fun w => (Err (AttributeError (__name__ m')), w)
        end
    end.

(** [_morpheus] in [python/morpheus/asyncio.py] when the file is imported
    as [morpheus.asyncio].  The import system initialises the parent
    package first, and it is line 7 of the package's [__init__.py] that
    loads the submodule: when line 21, [import morpheus as _morpheus],
    runs, [morpheus] is in [sys.modules] and the statement binds that
    module object; it cannot raise ImportError. *)
Definition bound_in_package {W} (native : option (module_object W))
    (frames : nat) : module_object W :=
  Asyncio.bind_morpheus native (Some (package native frames)).

(** [_morpheus] in [python/morpheus_asyncio.py].  Line 29,
    [import morpheus as _morpheus], finds the package [python/morpheus]
    when that directory is importable, and raises ImportError otherwise
    (the file copied or loaded on its own). *)
Definition bound_in_legacy {W} (package_importable : bool)
    (native : option (module_object W)) (frames : nat) : module_object W :=
  Asyncio.bind_morpheus_legacy
    (if package_importable then Some (package native frames) else None).

End Imports.

(** * Properties *)

(** ** Shared types *)

(** C8. The exported configuration constants have exactly the specified
    values: MAX_WORKERS = 1024, DEFAULT_SLICE_NS = 5000000,
    GRACE_PERIOD_NS = 100000000, RINGBUF_SIZE = 262144. *)
Theorem config_constants_values :
  Shared.MAX_WORKERS = 1024 /\
  Shared.DEFAULT_SLICE_NS = 5000000 /\
  Shared.GRACE_PERIOD_NS = 100000000 /\
  Shared.RINGBUF_SIZE = 262144.
Proof. repeat split; reflexivity. Qed.

(** C4. The MorpheusScb structure is exactly 128 bytes in total, its field
    offsets equal the normative table (preempt_seq 0, budget_remaining_ns 8,
    kernel_pressure_level 16, worker_state 20, is_in_critical_section 64,
    escapable 68, last_ack_seq 72, runtime_priority 80, last_yield_reason
    84, escalation_policy 96), and verify_offsets() returns true without
    raising. *)
Theorem scb_layout_is_normative :
  Shared.sizeof Shared.MorpheusScb = 128 /\
  Shared.offset_of Shared.MorpheusScb "preempt_seq" = Some 0 /\
  Shared.offset_of Shared.MorpheusScb "budget_remaining_ns" = Some 8 /\
  Shared.offset_of Shared.MorpheusScb "kernel_pressure_level" = Some 16 /\
  Shared.offset_of Shared.MorpheusScb "worker_state" = Some 20 /\
  Shared.offset_of Shared.MorpheusScb "is_in_critical_section" = Some 64 /\
  Shared.offset_of Shared.MorpheusScb "escapable" = Some 68 /\
  Shared.offset_of Shared.MorpheusScb "last_ack_seq" = Some 72 /\
  Shared.offset_of Shared.MorpheusScb "runtime_priority" = Some 80 /\
  Shared.offset_of Shared.MorpheusScb "last_yield_reason" = Some 84 /\
  Shared.offset_of Shared.MorpheusScb "escalation_policy" = Some 96 /\
  Shared.verify_offsets = Ok true.
Proof. repeat split; vm_compute; reflexivity. Qed.

(** The layout leaves no gap and no overlap, and the field sizes add up to
    the size of the structure. *)
Lemma scb_fields_contiguous :
  Shared.contiguous 0 (Shared.descriptors Shared.MorpheusScb) = true /\
  fold_right (fun f acc => Shared.size f + acc) 0
    (Shared.descriptors Shared.MorpheusScb) = 128.
Proof. split; vm_compute; reflexivity. Qed.

(** ** Running coroutines: the equations of [run] *)

Section RunFacts.

Context {W : Type} (env : environment W).

Lemma run_bind {A B} (p : coro A) (f : A -> coro B) (w : W) :
  run env (bind p f) w =
  let '(out, tr, w1) := run env p w in
  match out with
  | Ok a => let '(out2, tr2, w2) := run env (f a) w1 in (out2, tr ++ tr2, w2)
  | Err e => (Err e, tr, w1)
  end.
Proof.
  revert w.
  induction p as [a | e | m k IH | k IH]; intro w; simpl.
  - destruct (run env (f a) w) as [[out2 tr2] w2]. reflexivity.
  - reflexivity.
  - destruct (backend env m w) as [r w1].
    rewrite IH.
    destruct (run env (k r) w1) as [[out tr] w2].
    destruct out as [a | e].
    + destruct (run env (f a) w2) as [[out2 tr2] w3]. reflexivity.
    + reflexivity.
  - destruct (event_loop env w) as [r w1].
    rewrite IH.
    destruct (run env (k r) w1) as [[out tr] w2].
    destruct out as [a | e].
    + destruct (run env (f a) w2) as [[out2 tr2] w3]. reflexivity.
    + reflexivity.
Qed.

Lemma run_call (m : method) (w : W) :
  run env (call m) w =
  (fst (backend env m w), [EvCall m], snd (backend env m w)).
Proof.
  unfold call. simpl.
  destruct (backend env m w) as [[v | e] w1]; reflexivity.
Qed.

Lemma run_sleep0 (w : W) :
  run env sleep0 w =
  (fst (event_loop env w), [EvSuspend], snd (event_loop env w)).
Proof.
  unfold sleep0. simpl.
  destruct (event_loop env w) as [[v | e] w1]; reflexivity.
Qed.

(** A [finally] block runs exactly once after its [try] block, whatever the
    outcome of that block. *)
Lemma run_try_finally {A} (p : coro A) (fin : coro unit) (w : W) :
  run env (try_finally p fin) w =
  let '(out, tr, w1) := run env p w in
  let '(fout, ftr, w2) := run env fin w1 in
  (match fout with Ok _ => out | Err e => Err e end, tr ++ ftr, w2).
Proof.
  revert w.
  induction p as [a | e | m k IH | k IH]; intro w; simpl.
  - rewrite run_bind.
    destruct (run env fin w) as [[[u | e] ftr] w2]; simpl.
    + rewrite app_nil_r. reflexivity.
    + reflexivity.
  - rewrite run_bind.
    destruct (run env fin w) as [[[u | e'] ftr] w2]; simpl.
    + rewrite app_nil_r. reflexivity.
    + reflexivity.
  - destruct (backend env m w) as [r w1].
    rewrite IH.
    destruct (run env (k r) w1) as [[out tr] w2].
    destruct (run env fin w2) as [[fout ftr] w3]. reflexivity.
  - destruct (event_loop env w) as [r w1].
    rewrite IH.
    destruct (run env (k r) w1) as [[out tr] w2].
    destruct (run env fin w2) as [[fout ftr] w3]. reflexivity.
Qed.

(** The exit half of a context manager runs exactly once after the body,
    and is told how the body ended. *)
Lemma run_with_body (ex : result unit -> coro unit) (body : coro unit)
    (w : W) :
  run env (with_body ex body) w =
  let '(out, tr, w1) := run env body w in
  let '(out2, tr2, w2) := run env (ex out) w1 in
  (out2, tr ++ tr2, w2).
Proof.
  revert w.
  induction body as [a | e | m k IH | k IH]; intro w; simpl.
  - destruct a.
    destruct (run env (ex (Ok tt)) w) as [[out2 tr2] w2]. reflexivity.
  - destruct (run env (ex (Err e)) w) as [[out2 tr2] w2]. reflexivity.
  - destruct (backend env m w) as [r w1].
    rewrite IH.
    destruct (run env (k r) w1) as [[out tr] w2].
    destruct (run env (ex out) w2) as [[out2 tr2] w3]. reflexivity.
  - destruct (event_loop env w) as [r w1].
    rewrite IH.
    destruct (run env (k r) w1) as [[out tr] w2].
    destruct (run env (ex out) w2) as [[out2 tr2] w3]. reflexivity.
Qed.

Lemma run_of_result {A} (r : result A) (w : W) :
  run env (of_result r) w = (r, [], w).
Proof. destruct r; reflexivity. Qed.

End RunFacts.

(** ** The suspending checkpoint and the forced yield *)

Section Checkpoint.

Context {W : Type} (env : environment W).

Import Asyncio.





Lemma force_yield_run (w w1 w2 : W) (b : bool) (d : result unit) :
  backend env _morpheus.acknowledge_yield w = (Ok b, w1) ->
  event_loop env w1 = (d, w2) ->
  run env force_yield w =
  (d, [EvCall _morpheus.acknowledge_yield; EvSuspend], w2).
Proof.
  intros Ha Hs. unfold force_yield, call, sleep0. simpl.
  rewrite Ha. simpl. rewrite Hs.
  destruct d as [[] | e]; reflexivity.
Qed.

End Checkpoint.


(** C7. force_yield() unconditionally calls acknowledge_yield() and then
    suspends exactly once, for every state of the underlying runtime and
    whatever acknowledge_yield() answers (in particular false: no hint
    outstanding); it never consults checkpoint(). *)
Theorem force_yield_always_yields
    {W : Type} (env : environment W) (w w1 w2 : W) (b : bool)
    (d : result unit) :
  backend env _morpheus.acknowledge_yield w = (Ok b, w1) ->
  event_loop env w1 = (d, w2) ->
  run env Asyncio.force_yield w =
    (d, [EvCall _morpheus.acknowledge_yield; EvSuspend], w2) /\
  occurrences EvSuspend (snd (fst (run env Asyncio.force_yield w))) = 1%nat /\
  occurrences (EvCall _morpheus.acknowledge_yield)
    (snd (fst (run env Asyncio.force_yield w))) = 1%nat.
Proof.
  intros Ha Hs.
  rewrite (force_yield_run env w w1 w2 b d Ha Hs).
  repeat split; reflexivity.
Qed.

(** ** The critical-section scope *)

Section Critical.

Context {W : Type} (env : environment W).

Import Asyncio.

(** One scope: the entry call, the body, the exit call; the exit call is
    made whatever the outcome [out] of the body is. *)
Lemma critical_scope_run (body : coro unit) (w w1 w2 w3 : W)
    (out r : result unit) (tr : list event) :
  backend env _morpheus.enter_critical_section w = (Ok tt, w1) ->
  run env body w1 = (out, tr, w2) ->
  backend env _morpheus.exit_critical_section w2 = (r, w3) ->
  run env (async_with morpheus_critical body) w =
  (match r with Ok _ => out | Err e => Err e end,
   EvCall _morpheus.enter_critical_section :: tr
     ++ [EvCall _morpheus.exit_critical_section],
   w3).
Proof.
  intros He Hb Hx.
  unfold async_with, morpheus_critical. cbn [cm_enter cm_exit].
  rewrite run_bind, (run_call env _morpheus.enter_critical_section), He.
  cbn [fst snd].
  rewrite run_with_body, Hb.
  rewrite run_try_finally, run_of_result,
    (run_call env _morpheus.exit_critical_section), Hx.
  cbn [fst snd app].
  destruct r as [[] | e]; reflexivity.
Qed.

(** A scope whose entry call raises never runs its body and never calls
    the exit. *)
Lemma critical_scope_entry_raises (body : coro unit) (w w1 : W) (e : exn) :
  backend env _morpheus.enter_critical_section w = (Err e, w1) ->
  run env (async_with morpheus_critical body) w =
  (Err e, [EvCall _morpheus.enter_critical_section], w1).
Proof.
  intro He. unfold async_with, morpheus_critical. cbn [cm_enter].
  rewrite run_bind, (run_call env _morpheus.enter_critical_section), He.
  reflexivity.
Qed.

Lemma repeat_snoc {A} (a : A) (k : nat) :
  repeat a k ++ [a] = a :: repeat a k.
Proof. induction k as [| k IH]; simpl; [reflexivity | now rewrite IH]. Qed.

(** [k] nested scopes: [k] entries, the body, [k] exits. *)
Lemma nested_critical_run (k : nat) :
  (forall w, fst (backend env _morpheus.enter_critical_section w) = Ok tt) ->
  (forall w, fst (backend env _morpheus.exit_critical_section w) = Ok tt) ->
  forall (body : coro unit) (w w2 : W) (out : result unit)
         (tr : list event),
    run env body
      (Nat.iter k (world_after env _morpheus.enter_critical_section) w)
      = (out, tr, w2) ->
    run env (nested_critical k body) w =
    (out,
     repeat (EvCall _morpheus.enter_critical_section) k ++ tr
       ++ repeat (EvCall _morpheus.exit_critical_section) k,
     Nat.iter k (world_after env _morpheus.exit_critical_section) w2).
Proof.
  intros Henter Hexit.
  induction k as [| k IH]; intros body w w2 out tr Hb.
  - simpl in *. rewrite app_nil_r. exact Hb.
  - cbn [nested_critical].
    set (w1 := world_after env _morpheus.enter_critical_section w).
    assert (He : backend env _morpheus.enter_critical_section w = (Ok tt, w1)).
    { unfold w1, world_after. specialize (Henter w).
      destruct (backend env _morpheus.enter_critical_section w) as [r w'].
      simpl in *. now subst r. }
    rewrite Nat.iter_succ_r in Hb. fold w1 in Hb.
    specialize (IH body w1 w2 out tr Hb).
    set (w3 := Nat.iter k
                 (world_after env _morpheus.exit_critical_section) w2) in *.
    assert (Hx : backend env _morpheus.exit_critical_section w3
                 = (Ok tt, world_after env
                             _morpheus.exit_critical_section w3)).
    { unfold world_after. specialize (Hexit w3).
      destruct (backend env _morpheus.exit_critical_section w3) as [r w'].
      simpl in *. now subst r. }
    rewrite (critical_scope_run _ _ _ _ _ _ _ _ He IH Hx).
    rewrite Nat.iter_succ. fold w3. cbn [repeat app].
    rewrite <- !app_assoc, repeat_snoc. reflexivity.
Qed.

End Critical.

(** ** The native runtime: what entries and exits do to the count *)

Section NativeCount.

Import Native Script.

Lemma native_enter_returns (w : world) :
  fst (backend native_env _morpheus.enter_critical_section w) = Ok tt.
Proof. reflexivity. Qed.

Lemma native_exit_returns (w : world) :
  fst (backend native_env _morpheus.exit_critical_section w) = Ok tt.
Proof. reflexivity. Qed.

Lemma count_after_exit (rt : Runtime) :
  critical_count (exit_critical_section rt) = N.pred (critical_count rt).
Proof.
  unfold critical_count, exit_critical_section.
  destruct (slot rt) as [s |] eqn:Hs.
  - destruct (N.eqb_spec (is_in_critical_section s) 0) as [E | E]; simpl.
    + rewrite E. reflexivity.
    + lia.
  - rewrite Hs. reflexivity.
Qed.

Lemma count_after_enter (rt : Runtime) :
  critical_count (enter_critical_section rt) =
  match slot rt with
  | Some _ => (critical_count rt + 1)%N
  | None => 0%N
  end.
Proof.
  unfold critical_count, enter_critical_section.
  destruct (slot rt) as [s |] eqn:E; simpl; [reflexivity | now rewrite E].
Qed.

Lemma bound_after_enter (rt : Runtime) :
  slot (enter_critical_section rt) = None <-> slot rt = None.
Proof.
  unfold enter_critical_section.
  destruct (slot rt) as [s |] eqn:E; simpl; [split; discriminate | now rewrite E].
Qed.

Lemma count_after_exits (k : nat) (w : world) :
  critical_count
    (runtime
       (Nat.iter k (world_after native_env _morpheus.exit_critical_section) w))
  = (critical_count (runtime w) - N.of_nat k)%N.
Proof.
  induction k as [| k IH].
  - simpl. lia.
  - rewrite Nat.iter_succ.
    unfold world_after at 1. cbn [native_env backend native_object snd].
    cbn [put_runtime runtime].
    rewrite count_after_exit, IH. lia.
Qed.

Lemma count_after_enters (k : nat) (w : world) :
  critical_count
    (runtime
       (Nat.iter k (world_after native_env _morpheus.enter_critical_section) w))
  = match slot (runtime w) with
    | Some _ => (critical_count (runtime w) + N.of_nat k)%N
    | None => 0%N
    end
  /\ (slot (runtime
        (Nat.iter k
           (world_after native_env _morpheus.enter_critical_section) w))
      = None <-> slot (runtime w) = None).
Proof.
  induction k as [| k [IHc IHs]].
  - simpl. split; [| tauto].
    unfold critical_count. destruct (slot (runtime w)); [lia | reflexivity].
  - rewrite Nat.iter_succ.
    unfold world_after at 1 3. cbn [native_env backend native_object snd].
    cbn [put_runtime runtime].
    split.
    + rewrite count_after_enter.
      destruct (slot (runtime w)) as [s |] eqn:E.
      * destruct (slot (runtime (Nat.iter k _ w))) as [s' |] eqn:E'.
        -- rewrite IHc. lia.
        -- exfalso. destruct IHs as [IHs _]. specialize (IHs eq_refl).
           discriminate.
      * destruct IHs as [_ IHs]. rewrite (IHs eq_refl). reflexivity.
    + rewrite bound_after_enter. exact IHs.
Qed.

(** [k] nested scopes around a body that leaves the count as it found it
    leave the count as they found it. *)
Lemma nested_critical_restores_count (k : nat) (body : coro unit)
    (w : world) :
  let inner :=
    Nat.iter k (world_after native_env _morpheus.enter_critical_section) w in
  critical_count (runtime (snd (run native_env body inner)))
    = critical_count (runtime inner) ->
  critical_count
    (runtime (snd (run native_env (Asyncio.nested_critical k body) w)))
    = critical_count (runtime w).
Proof.
  intros inner Hbody.
  destruct (run native_env body inner) as [[out tr] w2] eqn:Hrun.
  rewrite (nested_critical_run native_env k native_enter_returns
             native_exit_returns body w w2 out tr Hrun).
  cbn [snd] in *.
  rewrite count_after_exits, Hbody.
  destruct (count_after_enters k w) as [Hc _]. fold inner in Hc.
  rewrite Hc.
  unfold critical_count.
  destruct (slot (runtime w)) as [s |]; lia.
Qed.

End NativeCount.

(** C2. The scoped critical section (morpheus_critical) calls
    enter_critical_section exactly once on entry and exit_critical_section
    exactly once on every exit path of the body (normal return, error
    raised inside the scope, cancellation delivered at a suspension inside
    it: [out] ranges over all of them); k nested scopes make k entries,
    then run the body, then make k exits; and on the runtime whose entry
    increments and whose exit decrements the count, nesting k scopes and
    leaving them returns the count to its prior value. *)
Theorem critical_scope_balanced :
  (forall (W : Type) (env : environment W) (body : coro unit)
          (w w1 w2 w3 : W) (out r : result unit) (tr : list event),
      backend env _morpheus.enter_critical_section w = (Ok tt, w1) ->
      run env body w1 = (out, tr, w2) ->
      backend env _morpheus.exit_critical_section w2 = (r, w3) ->
      run env (async_with Asyncio.morpheus_critical body) w =
      (match r with Ok _ => out | Err e => Err e end,
       EvCall _morpheus.enter_critical_section :: tr
         ++ [EvCall _morpheus.exit_critical_section],
       w3)) /\
  (forall (W : Type) (env : environment W) (k : nat),
      (forall w, fst (backend env _morpheus.enter_critical_section w)
                 = Ok tt) ->
      (forall w, fst (backend env _morpheus.exit_critical_section w)
                 = Ok tt) ->
      forall (body : coro unit) (w w2 : W) (out : result unit)
             (tr : list event),
        run env body
          (Nat.iter k (world_after env _morpheus.enter_critical_section) w)
          = (out, tr, w2) ->
        run env (Asyncio.nested_critical k body) w =
        (out,
         repeat (EvCall _morpheus.enter_critical_section) k ++ tr
           ++ repeat (EvCall _morpheus.exit_critical_section) k,
         Nat.iter k (world_after env _morpheus.exit_critical_section) w2)) /\
  (forall (k : nat) (body : coro unit) (w : Script.world),
      let inner :=
        Nat.iter k
          (world_after Script.native_env _morpheus.enter_critical_section) w in
      Native.critical_count
        (Script.runtime (snd (run Script.native_env body inner)))
        = Native.critical_count (Script.runtime inner) ->
      Native.critical_count
        (Script.runtime
           (snd (run Script.native_env (Asyncio.nested_critical k body) w)))
        = Native.critical_count (Script.runtime w)) /\
  (forall (k : nat) (w : Script.world),
      Native.critical_count
        (Script.runtime
           (snd (run Script.native_env
                   (Asyncio.nested_critical k (Return tt)) w)))
        = Native.critical_count (Script.runtime w)).
Proof.
  split; [| split; [| split]].
  - intros W env body w w1 w2 w3 out r tr.
    apply critical_scope_run.
  - intros W env k. apply nested_critical_run.
  - exact nested_critical_restores_count.
  - intros k w. apply nested_critical_restores_count. reflexivity.
Qed.

(** ** Degradation to the stub *)

(** C3.  When the native module is unavailable ([import _morpheus] raises
    ImportError) and the helpers are imported from the package, the stub
    is not what [_morpheus] is bound to: the second import statement of
    [asyncio.py] binds the package itself, which has none of the native
    names.  checkpoint(), yield_requested(), acknowledge_yield(),
    pressure_level(), is_in_critical_section(), enter_critical_section()
    and exit_critical_section() raise AttributeError, is_defensive_mode()
    calls itself until RecursionError, and so every helper raises at its
    first call on [_morpheus]: morpheus_checkpoint, force_yield, the
    critical-section scope (whose body is not run), is_kernel_pressured,
    is_defensive_mode and should_check.  [morpheus_asyncio.py] binds the
    same package when it is importable, with the same outcome, and binds
    the stub only when it is not. *)
Theorem stub_not_bound_in_package
    {W : Type} (loop : W -> result unit * W) (frames : nat) (w : W) :
  let env := {| backend := Imports.bound_in_package None frames;
                event_loop := loop |} in
  (backend env _morpheus.checkpoint w =
     (Err (AttributeError "checkpoint"), w) /\
   backend env _morpheus.yield_requested w =
     (Err (AttributeError "yield_requested"), w) /\
   backend env _morpheus.acknowledge_yield w =
     (Err (AttributeError "acknowledge_yield"), w) /\
   backend env _morpheus.pressure_level w =
     (Err (AttributeError "pressure_level"), w) /\
   backend env _morpheus.is_in_critical_section w =
     (Err (AttributeError "is_in_critical_section"), w) /\
   backend env _morpheus.enter_critical_section w =
     (Err (AttributeError "enter_critical_section"), w) /\
   backend env _morpheus.exit_critical_section w =
     (Err (AttributeError "exit_critical_section"), w) /\
   backend env _morpheus.is_defensive_mode w = (Err RecursionError, w)) /\
  (run env Asyncio.morpheus_checkpoint w =
     (Err (AttributeError "checkpoint"), [EvCall _morpheus.checkpoint], w) /\
   run env Asyncio.force_yield w =
     (Err (AttributeError "acknowledge_yield"),
      [EvCall _morpheus.acknowledge_yield], w) /\
   (forall body : coro unit,
      run env (async_with Asyncio.morpheus_critical body) w =
        (Err (AttributeError "enter_critical_section"),
         [EvCall _morpheus.enter_critical_section], w)) /\
   (forall threshold,
      run env (Asyncio.is_kernel_pressured threshold) w =
        (Err (AttributeError "pressure_level"),
         [EvCall _morpheus.pressure_level], w)) /\
   run env Asyncio.is_defensive_mode w =
     (Err RecursionError, [EvCall _morpheus.is_defensive_mode], w) /\
   (forall self iteration,
      run env (Asyncio.should_check self iteration) w =
        (Err (AttributeError "pressure_level"),
         [EvCall _morpheus.pressure_level], w))) /\
  (Imports.bound_in_legacy (W := W) true None frames =
     Imports.package None frames /\
   Imports.bound_in_package (W := W) None frames =
     Imports.package None frames /\
   Imports.bound_in_legacy (W := W) false None frames =
     Asyncio.stub_object).
Proof.
  intro env.
  assert (Hrec : forall n,
            Imports.package (W := W) None n _morpheus.is_defensive_mode w
            = (Err RecursionError, w)).
  { induction n as [| n IH]; [reflexivity | exact IH]. }
  assert (Hattr : forall m,
            m <> _morpheus.is_defensive_mode ->
            backend env m w = (Err (AttributeError (Imports.__name__ m)), w)).
  { intros m Hm. subst env. cbn [backend].
    unfold Imports.bound_in_package, Asyncio.bind_morpheus.
    destruct frames, m; solve [reflexivity | contradiction Hm; reflexivity]. }
  split; [| split].
  - split; [exact (Hattr _morpheus.checkpoint ltac:(discriminate)) |].
    split; [exact (Hattr _morpheus.yield_requested ltac:(discriminate)) |].
    split; [exact (Hattr _morpheus.acknowledge_yield ltac:(discriminate)) |].
    split; [exact (Hattr _morpheus.pressure_level ltac:(discriminate)) |].
    split;
      [exact (Hattr _morpheus.is_in_critical_section ltac:(discriminate)) |].
    split;
      [exact (Hattr _morpheus.enter_critical_section ltac:(discriminate)) |].
    split;
      [exact (Hattr _morpheus.exit_critical_section ltac:(discriminate)) |].
    exact (Hrec frames).
  - split.
    { unfold Asyncio.morpheus_checkpoint.
      rewrite run_bind, (run_call env _morpheus.checkpoint).
      rewrite (Hattr _morpheus.checkpoint) by discriminate. reflexivity. }
    split.
    { unfold Asyncio.force_yield.
      rewrite run_bind, (run_call env _morpheus.acknowledge_yield).
      rewrite (Hattr _morpheus.acknowledge_yield) by discriminate.
      reflexivity. }
    split.
    { intro body. apply critical_scope_entry_raises.
      apply (Hattr _morpheus.enter_critical_section). discriminate. }
    split.
    { intro threshold. unfold Asyncio.is_kernel_pressured.
      rewrite run_bind, (run_call env _morpheus.pressure_level).
      rewrite (Hattr _morpheus.pressure_level) by discriminate.
      reflexivity. }
    split.
    { unfold Asyncio.is_defensive_mode.
      rewrite (run_call env _morpheus.is_defensive_mode).
      change (backend env _morpheus.is_defensive_mode w)
        with (Imports.package (W := W) None frames
                _morpheus.is_defensive_mode w).
      rewrite (Hrec frames). reflexivity. }
    intros self iteration. unfold Asyncio.should_check.
    rewrite run_bind, (run_call env _morpheus.pressure_level).
    rewrite (Hattr _morpheus.pressure_level) by discriminate.
    reflexivity.
  - repeat split.
Qed.

(** X23. When both import statements raise ImportError (the file is
    loaded on its own, outside the package), [_morpheus] is bound to the
    stub in both files, and every operation gives a neutral value:
    checkpoint(), yield_requested() and acknowledge_yield() return false,
    pressure_level() returns absent, is_in_critical_section() and
    is_defensive_mode() return false, the critical-section scope is a
    no-op (the body's outcome and world, with the two stub calls around
    it), and none of these operations raises; the helpers built on them
    return without suspending. *)
Theorem stub_degradation
    {W : Type} (loop : W -> result unit * W) (w : W) :
  let env := {| backend := Asyncio.bind_morpheus None None;
                event_loop := loop |} in
  (Asyncio.bind_morpheus (W := W) None None = Asyncio.stub_object /\
   Asyncio.bind_morpheus_legacy (W := W) None = Asyncio.stub_object) /\
  (backend env _morpheus.checkpoint w = (Ok false, w) /\
   backend env _morpheus.yield_requested w = (Ok false, w) /\
   backend env _morpheus.acknowledge_yield w = (Ok false, w) /\
   backend env _morpheus.pressure_level w = (Ok None, w) /\
   backend env _morpheus.is_in_critical_section w = (Ok false, w) /\
   backend env _morpheus.is_defensive_mode w = (Ok false, w) /\
   backend env _morpheus.enter_critical_section w = (Ok tt, w) /\
   backend env _morpheus.exit_critical_section w = (Ok tt, w)) /\
  (forall body : coro unit,
     run env (async_with Asyncio.morpheus_critical body) w =
     let '(out, tr, w1) := run env body w in
     (out,
      EvCall _morpheus.enter_critical_section :: tr
        ++ [EvCall _morpheus.exit_critical_section],
      w1)) /\
  (run env Asyncio.morpheus_checkpoint w =
     (Ok false, [EvCall _morpheus.checkpoint], w) /\
   (forall threshold,
      run env (Asyncio.is_kernel_pressured threshold) w =
        (Ok false, [EvCall _morpheus.pressure_level], w)) /\
   run env Asyncio.is_defensive_mode w =
     (Ok false, [EvCall _morpheus.is_defensive_mode], w) /\
   (forall self iteration,
      exists answer,
        run env (Asyncio.should_check self iteration) w =
          (Ok answer, [EvCall _morpheus.pressure_level], w))).
Proof.
  intro env.
  split; [split; reflexivity |].
  split; [repeat split |].
  split.
  - intro body.
    destruct (run env body w) as [[out tr] w1] eqn:Hb.
    exact (critical_scope_run env body w w w1 w1 out (Ok tt) tr
             eq_refl Hb eq_refl).
  - split; [reflexivity |].
    split; [intro threshold; reflexivity |].
    split; [reflexivity |].
    intros self iteration.
    unfold Asyncio.should_check, call. simpl.
    destruct (iteration - Asyncio._last_check self
              >=? Asyncio.interval self 0);
      eexists; reflexivity.
Qed.


(** ** Pressure queries and the adaptive pacer *)

Section Pacer.

Context {W : Type} (env : environment W).

Import Asyncio.

Lemma or_0_present (p : Z) : or_0 (Some p) = p.
Proof.
  unfold or_0. destruct (Z.eqb_spec p 0) as [-> | _]; reflexivity.
Qed.

Lemma should_check_run (self : AdaptiveCheckpointer) (iteration : Z)
    (level : option Z) (w w1 : W) :
  backend env _morpheus.pressure_level w = (Ok level, w1) ->
  run env (should_check self iteration) w =
  (Ok (should_check_answer self iteration (or_0 level)),
   [EvCall _morpheus.pressure_level], w1).
Proof.
  intro Hp. unfold should_check, should_check_answer, call. simpl.
  rewrite Hp. simpl.
  destruct (iteration - _last_check self >=? interval self (or_0 level));
    reflexivity.
Qed.

(** Floor division does not change the test: comparing the integer
    distance with the floored interval is comparing it with the exact
    quotient. *)
Lemma interval_test_exact (self : AdaptiveCheckpointer)
    (iteration pressure : Z) :
  iteration - _last_check self >= interval self pressure <->
  100 * (iteration - _last_check self) >=
    100 * max_interval self
    - (max_interval self - min_interval self) * pressure.
Proof.
  unfold interval.
  set (x := (max_interval self - min_interval self) * pressure).
  pose proof (Z.div_mod x 100 ltac:(lia)) as Hdm.
  pose proof (Z.mod_pos_bound x 100 ltac:(lia)) as Hb.
  split; intro H; lia.
Qed.

Lemma interval_monotone (self : AdaptiveCheckpointer) (p1 p2 : Z) :
  min_interval self <= max_interval self ->
  p1 <= p2 ->
  interval self p2 <= interval self p1.
Proof.
  intros Hmm Hp. unfold interval.
  assert ((max_interval self - min_interval self) * p1 / 100
          <= (max_interval self - min_interval self) * p2 / 100).
  { apply Z.div_le_mono; [lia | nia]. }
  lia.
Qed.

Lemma interval_bounds (self : AdaptiveCheckpointer) (p : Z) :
  min_interval self <= max_interval self ->
  0 <= p <= 100 ->
  min_interval self <= interval self p <= max_interval self.
Proof.
  intros Hmm Hp. unfold interval.
  set (d := max_interval self - min_interval self).
  assert (0 <= d * p / 100) by (apply Z.div_pos; nia).
  assert (d * p / 100 <= d).
  { apply Z.div_le_upper_bound; [lia | nia]. }
  lia.
Qed.

End Pacer.

(** C5. For every pressure p the runtime reports (in particular every p in
    [0,100]), should_check(i) computes
    interval = max_interval - (max_interval - min_interval) * p // 100,
    returns true and moves its cursor to i exactly when
    i - last_check >= interval, and otherwise returns false and leaves the
    cursor unchanged; the floor in the division does not change that test.
    With min_interval = 100 and max_interval = 10000, pressure 0 gives
    10000, pressure 100 gives 100 and pressure 50 gives 5050. *)
Theorem should_check_follows_interval
    {W : Type} (env : environment W) (self : Asyncio.AdaptiveCheckpointer)
    (iteration p : Z) (w w1 : W) :
  backend env _morpheus.pressure_level w = (Ok (Some p), w1) ->
  (exists (answer : bool) (self' : Asyncio.AdaptiveCheckpointer),
     run env (Asyncio.should_check self iteration) w =
       (Ok (answer, self'), [EvCall _morpheus.pressure_level], w1) /\
     (iteration - Asyncio._last_check self >= Asyncio.interval self p ->
        answer = true /\
        Asyncio._last_check self' = iteration /\
        Asyncio.min_interval self' = Asyncio.min_interval self /\
        Asyncio.max_interval self' = Asyncio.max_interval self) /\
     (iteration - Asyncio._last_check self < Asyncio.interval self p ->
        answer = false /\ self' = self)) /\
  Asyncio.interval self p =
    Asyncio.max_interval self
    - (Asyncio.max_interval self - Asyncio.min_interval self) * p / 100 /\
  (iteration - Asyncio._last_check self >= Asyncio.interval self p <->
   100 * (iteration - Asyncio._last_check self) >=
     100 * Asyncio.max_interval self
     - (Asyncio.max_interval self - Asyncio.min_interval self) * p) /\
  Asyncio.interval (Asyncio.__init__ 100 10000) 0 = 10000 /\
  Asyncio.interval (Asyncio.__init__ 100 10000) 100 = 100 /\
  Asyncio.interval (Asyncio.__init__ 100 10000) 50 = 5050.
Proof.
  intro Hp.
  split; [| split; [reflexivity | split;
                    [apply interval_test_exact | repeat split; reflexivity]]].
  rewrite (should_check_run env self iteration (Some p) w w1 Hp).
  rewrite or_0_present. unfold Asyncio.should_check_answer.
  destruct (Z.geb_spec (iteration - Asyncio._last_check self)
              (Asyncio.interval self p)) as [Hge | Hlt].
  - eexists _, _. split; [reflexivity |]. split.
    + intros _. repeat split; reflexivity.
    + intro Hlt. lia.
  - eexists _, _. split; [reflexivity |]. split.
    + intro Hge. lia.
    + intros _. split; reflexivity.
Qed.

(** C6. For every pair of pressures p1 <= p2 in [0,100] and every
    0 < min_interval <= max_interval, the pacer interval at p2 is at most
    the interval at p1, and every computed interval lies within
    [min_interval, max_interval]. *)
Theorem interval_monotone_and_bounded
    (self : Asyncio.AdaptiveCheckpointer) (p1 p2 : Z) :
  0 < Asyncio.min_interval self <= Asyncio.max_interval self ->
  0 <= p1 -> p1 <= p2 -> p2 <= 100 ->
  Asyncio.interval self p2 <= Asyncio.interval self p1 /\
  Asyncio.min_interval self <= Asyncio.interval self p1
    <= Asyncio.max_interval self /\
  Asyncio.min_interval self <= Asyncio.interval self p2
    <= Asyncio.max_interval self.
Proof.
  intros Hmm H0 H12 H100.
  split; [apply interval_monotone; lia |].
  split; apply interval_bounds; lia.
Qed.

(** C9. is_kernel_pressured(threshold) returns true if and only if
    pressure_level() is present and strictly greater than threshold (50 by
    default); when pressure is absent it returns false for every
    threshold. *)
Theorem is_kernel_pressured_iff
    {W : Type} (env : environment W) (threshold : Z) (level : option Z)
    (w w1 : W) :
  backend env _morpheus.pressure_level w = (Ok level, w1) ->
  (exists answer : bool,
     run env (Asyncio.is_kernel_pressured threshold) w =
       (Ok answer, [EvCall _morpheus.pressure_level], w1) /\
     (answer = true <-> exists p, level = Some p /\ p > threshold)) /\
  (level = None ->
     run env (Asyncio.is_kernel_pressured threshold) w =
       (Ok false, [EvCall _morpheus.pressure_level], w1)) /\
  Asyncio.is_kernel_pressured_default = Asyncio.is_kernel_pressured 50.
Proof.
  intro Hp.
  assert (Hrun : run env (Asyncio.is_kernel_pressured threshold) w =
                 (Ok (match level with
                      | None => false
                      | Some l => l >? threshold
                      end), [EvCall _morpheus.pressure_level], w1)).
  { unfold Asyncio.is_kernel_pressured, call. simpl. rewrite Hp.
    reflexivity. }
  split; [| split; [intros ->; exact Hrun | reflexivity]].
  eexists. split; [exact Hrun |].
  destruct level as [l |].
  - destruct (Z.gtb_spec l threshold) as [Hgt | Hle]; split.
    + intros _. exists l. split; [reflexivity | lia].
    + reflexivity.
    + discriminate.
    + intros [p [Heq Hgt]]. injection Heq as <-. lia.
  - split; [discriminate | intros [p [Heq _]]; discriminate].
Qed.

(** C10. When pressure_level() returns absent, should_check behaves
    exactly as it does with pressure 0: same answer, same cursor, and the
    interval it uses is max_interval. *)
Theorem should_check_absent_pressure
    {W : Type} (env : environment W) (self : Asyncio.AdaptiveCheckpointer)
    (iteration : Z) (w w1 v v1 : W) :
  backend env _morpheus.pressure_level w = (Ok None, w1) ->
  backend env _morpheus.pressure_level v = (Ok (Some 0), v1) ->
  fst (fst (run env (Asyncio.should_check self iteration) w)) =
    fst (fst (run env (Asyncio.should_check self iteration) v)) /\
  Asyncio.interval self (Asyncio.or_0 None) = Asyncio.max_interval self /\
  run env (Asyncio.should_check self iteration) w =
    (Ok (if iteration - Asyncio._last_check self
            >=? Asyncio.max_interval self
         then (true, {| Asyncio.min_interval := Asyncio.min_interval self;
                        Asyncio.max_interval := Asyncio.max_interval self;
                        Asyncio._last_check := iteration |})
         else (false, self)),
     [EvCall _morpheus.pressure_level], w1).
Proof.
  intros Hw Hv.
  assert (Hi : Asyncio.interval self 0 = Asyncio.max_interval self).
  { unfold Asyncio.interval. rewrite Z.mul_0_r.
    change (0 / 100) with 0. lia. }
  rewrite (should_check_run env self iteration None w w1 Hw).
  rewrite (should_check_run env self iteration (Some 0) v v1 Hv).
  split; [reflexivity |].
  split; [exact Hi |].
  unfold Asyncio.should_check_answer. simpl Asyncio.or_0. rewrite Hi.
  reflexivity.
Qed.

(** ** Concrete runs *)



(** A worker with no hint outstanding is made to yield. *)
Lemma force_yield_always_yields_witness :
  let w := Script.bound (Script.scb0 7 7 0 0) [] in
  backend Script.native_env _morpheus.acknowledge_yield w
    = (Ok false,
       Script.bound
         {| Native.preempt_seq := 7;
            Native.kernel_pressure_level := 0;
            Native.is_in_critical_section := 0;
            Native.last_ack_seq := 7;
            Native.last_yield_reason := Shared.HINT |} []) /\
  run Script.native_env Asyncio.force_yield w =
    (Ok tt, [EvCall _morpheus.acknowledge_yield; EvSuspend],
     Script.bound
       {| Native.preempt_seq := 7;
          Native.kernel_pressure_level := 0;
          Native.is_in_critical_section := 0;
          Native.last_ack_seq := 7;
          Native.last_yield_reason := Shared.HINT |} []).
Proof.
  intro w. split; [reflexivity |].
  exact (proj1 (force_yield_always_yields Script.native_env w _ _ false
                  (Ok tt) eq_refl eq_refl)).
Defined.

(** Two scopes around a body that is cancelled at a suspension: both exits
    are made and the count is back at its prior value. *)
Lemma critical_scope_balanced_witness :
  let w := Script.bound (Script.scb0 1 0 3 50) [Err CancelledError] in
  run Script.native_env (Asyncio.nested_critical 2 sleep0) w =
    (Err CancelledError,
     [EvCall _morpheus.enter_critical_section;
      EvCall _morpheus.enter_critical_section;
      EvSuspend;
      EvCall _morpheus.exit_critical_section;
      EvCall _morpheus.exit_critical_section],
     Script.bound (Script.scb0 1 0 3 50) []) /\
  Native.critical_count
    (Script.runtime
       (snd (run Script.native_env (Asyncio.nested_critical 2 sleep0) w)))
    = 3%N.
Proof.
  intro w.
  destruct critical_scope_balanced as [_ [Hnest [Hcount _]]].
  split.
  - exact (Hnest Script.world Script.native_env 2%nat
             (fun _ => eq_refl) (fun _ => eq_refl) sleep0 w _ _ _ eq_refl).
  - exact (Hcount 2%nat sleep0 w eq_refl).
Defined.

Lemma should_check_follows_interval_witness :
  let w := Script.bound (Script.scb0 0 0 0 50) [] in
  backend Script.native_env _morpheus.pressure_level w = (Ok (Some 50), w) /\
  exists (answer : bool) (self' : Asyncio.AdaptiveCheckpointer),
    run Script.native_env
      (Asyncio.should_check (Asyncio.__init__ 100 10000) 5050) w =
      (Ok (answer, self'), [EvCall _morpheus.pressure_level], w) /\
    answer = true /\
    Asyncio._last_check self' = 5050.
Proof.
  intro w. split; [reflexivity |].
  destruct (should_check_follows_interval Script.native_env
              (Asyncio.__init__ 100 10000) 5050 50 w w eq_refl)
    as [[answer [self' [Hrun [Hyes _]]]] _].
  exists answer, self'.
  split; [exact Hrun |].
  assert (Hge : 5050 - Asyncio._last_check (Asyncio.__init__ 100 10000)
                >= Asyncio.interval (Asyncio.__init__ 100 10000) 50)
    by (vm_compute; discriminate).
  destruct (Hyes Hge) as [Ha [Hl _]].
  split; [exact Ha | exact Hl].
Defined.

Lemma interval_monotone_and_bounded_witness :
  0 < 100 <= 10000 /\ 0 <= 25 /\ 25 <= 75 /\ 75 <= 100 /\
  Asyncio.interval (Asyncio.__init__ 100 10000) 75
    <= Asyncio.interval (Asyncio.__init__ 100 10000) 25 /\
  100 <= Asyncio.interval (Asyncio.__init__ 100 10000) 25 <= 10000 /\
  100 <= Asyncio.interval (Asyncio.__init__ 100 10000) 75 <= 10000.
Proof.
  split; [lia |]. split; [lia |]. split; [lia |]. split; [lia |].
  apply (interval_monotone_and_bounded (Asyncio.__init__ 100 10000) 25 75);
    simpl; lia.
Defined.

Lemma is_kernel_pressured_iff_witness :
  let w := Script.bound (Script.scb0 0 0 0 51) [] in
  backend Script.native_env _morpheus.pressure_level w = (Ok (Some 51), w) /\
  exists answer : bool,
    run Script.native_env (Asyncio.is_kernel_pressured 50) w =
      (Ok answer, [EvCall _morpheus.pressure_level], w) /\
    (answer = true <-> exists p, Some 51 = Some p /\ p > 50).
Proof.
  intro w. split; [reflexivity |].
  exact (proj1 (is_kernel_pressured_iff Script.native_env 50 (Some 51) w w
                  eq_refl)).
Defined.

Lemma should_check_absent_pressure_witness :
  let w := Script.unbound [] in
  let v := Script.bound (Script.scb0 0 0 0 0) [] in
  backend Script.native_env _morpheus.pressure_level w = (Ok None, w) /\
  backend Script.native_env _morpheus.pressure_level v = (Ok (Some 0), v) /\
  fst (fst (run Script.native_env
              (Asyncio.should_check (Asyncio.__init__ 100 10000) 10000) w)) =
  fst (fst (run Script.native_env
              (Asyncio.should_check (Asyncio.__init__ 100 10000) 10000) v)).
Proof.
  intros w v. split; [reflexivity |]. split; [reflexivity |].
  exact (proj1 (should_check_absent_pressure Script.native_env
                  (Asyncio.__init__ 100 10000) 10000 w w v v
                  eq_refl eq_refl)).
Defined.

(** * Further properties *)

(** ** [verify_offsets] and the layouts *)

Section VerifyOffsets.

Import Shared Layouts.

Variable scb : Structure.

Lemma check_offsets_cases (items : list (string * Z)) :
  check_offsets scb items = Ok tt \/
  exists e, check_offsets scb items = Err e.
Proof.
  destruct (check_offsets scb items) as [[] | e]; [left | right; exists e];
    reflexivity.
Qed.

Lemma at_expected_offset_getattr (name : string) (off : Z) :
  at_expected_offset scb (name, off) <->
  exists d, getattr scb name = Ok d /\ offset d = off.
Proof.
  unfold at_expected_offset, offset_of. simpl.
  destruct (getattr scb name) as [d | e].
  - split.
    + intro H. injection H as <-. now exists d.
    + intros [d' [Hd <-]]. now injection Hd as ->.
  - split; [discriminate | intros [d' [Hd _]]; discriminate].
Qed.

Lemma check_offsets_ok (items : list (string * Z)) :
  check_offsets scb items = Ok tt <-> Forall (at_expected_offset scb) items.
Proof.
  induction items as [| [name off] rest IH]; simpl.
  - split; [constructor | reflexivity].
  - pose proof (at_expected_offset_getattr name off) as Hat.
    destruct (getattr scb name) as [d | e] eqn:Hd.
    + destruct (Z.eqb_spec (offset d) off) as [Heq | Hne]; simpl.
      * rewrite IH. split.
        -- intro H. constructor; [| exact H].
           apply Hat. now exists d.
        -- intro H. now inversion H.
      * split; [discriminate |]. intro H. inversion H as [| x l Hx Hl].
        apply Hat in Hx. destruct Hx as [d' [Hd' Ho]].
        injection Hd' as <-. contradiction.
    + split; [discriminate |]. intro H. inversion H as [| x l Hx Hl].
      apply Hat in Hx. destruct Hx as [d' [Hd' _]]. discriminate.
Qed.

(** Entries that hold are passed over. *)
Lemma check_offsets_skip (pre rest : list (string * Z)) :
  Forall (at_expected_offset scb) pre ->
  check_offsets scb (pre ++ rest) = check_offsets scb rest.
Proof.
  induction pre as [| [name off] pre IH]; intro H; simpl; [reflexivity |].
  inversion H as [| x l Hx Hl]. subst.
  unfold at_expected_offset, offset_of in Hx. simpl in Hx.
  destruct (getattr scb name) as [d | e]; [| discriminate].
  injection Hx as ->. rewrite Z.eqb_refl. simpl. apply IH. exact Hl.
Qed.

Lemma check_offsets_first_mismatch (name : string) (off : Z)
    (post : list (string * Z)) :
  ~ at_expected_offset scb (name, off) ->
  check_offsets scb ((name, off) :: post) =
  match offset_of scb name with
  | Some actual => Err (AssertionError (OffsetMismatch name off actual))
  | None => Err (AttributeError name)
  end.
Proof.
  unfold at_expected_offset, offset_of. simpl. intro Hne.
  destruct (getattr scb name) as [d | e] eqn:Hd.
  - destruct (Z.eqb_spec (offset d) off) as [Heq | Hneq]; simpl.
    + exfalso. apply Hne. now rewrite Heq.
    + reflexivity.
  - unfold getattr in Hd.
    destruct (find _ _); [discriminate | now injection Hd as <-].
Qed.

End VerifyOffsets.

(** X1. [verify_offsets], run on any structure, returns true exactly when
    the structure is 128 bytes long and every field of the expected table
    sits at its expected offset; it never returns false (a failed check
    raises). *)
Theorem verify_offsets_accepts_iff (scb : Shared.Structure) :
  (Shared.verify_offsets_of scb = Ok true <->
   Shared.sizeof scb = 128 /\
   Forall (Layouts.at_expected_offset scb) Shared.expected) /\
  Shared.verify_offsets_of scb <> Ok false.
Proof.
  unfold Shared.verify_offsets_of.
  pose proof (check_offsets_ok scb Shared.expected) as Hok.
  destruct (check_offsets_cases scb Shared.expected) as [Hc | [e Hc]];
    rewrite Hc.
  - destruct (Z.eqb_spec (Shared.sizeof scb) 128) as [Hs | Hs]; simpl.
    + split; [| discriminate]. split; [intros _ | reflexivity].
      split; [exact Hs | now apply Hok].
    + split; [| discriminate]. split; [discriminate |].
      intros [Hs' _]. contradiction.
  - split; [| discriminate]. split; [discriminate |].
    intros [_ Hall]. apply Hok in Hall. congruence.
Qed.

(** X2. When the entries of the expected table before some entry all hold
    and that entry does not, [verify_offsets] raises for that entry: an
    AssertionError naming the field, the expected and the actual offset,
    or AttributeError when the structure has no such field.  When every
    entry holds and the size is not 128, it raises the size mismatch with
    the actual size. *)
Theorem verify_offsets_reports_first_failure (scb : Shared.Structure) :
  (forall (pre post : list (string * Z)) (name : string) (off : Z),
      Shared.expected = pre ++ (name, off) :: post ->
      Forall (Layouts.at_expected_offset scb) pre ->
      ~ Layouts.at_expected_offset scb (name, off) ->
      Shared.verify_offsets_of scb =
      match Shared.offset_of scb name with
      | Some actual =>
          Err (AssertionError (OffsetMismatch name off actual))
      | None => Err (AttributeError name)
      end) /\
  (Forall (Layouts.at_expected_offset scb) Shared.expected ->
   Shared.sizeof scb <> 128 ->
   Shared.verify_offsets_of scb =
   Err (AssertionError (SizeMismatch 128 (Shared.sizeof scb)))).
Proof.
  split.
  - intros pre post name off Hsplit Hpre Hbad.
    unfold Shared.verify_offsets_of. rewrite Hsplit.
    rewrite (check_offsets_skip scb pre _ Hpre).
    rewrite (check_offsets_first_mismatch scb name off post Hbad).
    destruct (Shared.offset_of scb name); reflexivity.
  - intros Hall Hsize. unfold Shared.verify_offsets_of.
    apply check_offsets_ok in Hall. rewrite Hall.
    destruct (Z.eqb_spec (Shared.sizeof scb) 128); [contradiction |].
    reflexivity.
Qed.

(** Without [_reserved0] the second cache line starts at byte 24: the
    first four entries hold and [is_in_critical_section] is reported.
    Without [_reserved2] every offset holds and the size is 104. *)
Lemma verify_offsets_reports_first_failure_witness :
  Shared.verify_offsets_of
    (Layouts.without_field "_reserved0" Shared.MorpheusScb) =
    Err (AssertionError (OffsetMismatch "is_in_critical_section" 64 24)) /\
  Shared.verify_offsets_of
    (Layouts.without_field "_reserved2" Shared.MorpheusScb) =
    Err (AssertionError (SizeMismatch 128 104)).
Proof.
  split.
  - refine (proj1 (verify_offsets_reports_first_failure
                     (Layouts.without_field "_reserved0" Shared.MorpheusScb))
              (firstn 4 Shared.expected) (skipn 5 Shared.expected)
              "is_in_critical_section" 64 eq_refl _ _).
    + repeat constructor.
    + vm_compute. discriminate.
  - refine (proj2 (verify_offsets_reports_first_failure
                     (Layouts.without_field "_reserved2" Shared.MorpheusScb))
              _ _).
    + repeat constructor.
    + vm_compute. discriminate.
Defined.

Section Packing.

Import Shared Layouts.

Lemma alignment_at_most_8 (t : ctype) : alignment t <= 8.
Proof. induction t as [| | elem IH len]; simpl; lia. Qed.

Lemma place_pack_irrelevant (p : Z) (acc : Z * Z * list CField)
    (f : string * ctype) :
  8 <= p -> place (Some p) acc f = place None acc f.
Proof.
  intro Hp. unfold place, field_align.
  pose proof (alignment_at_most_8 (snd f)).
  destruct (Z.eqb_spec p 0) as [H0 | _]; [lia |].
  rewrite Z.min_r by lia. reflexivity.
Qed.

Lemma fold_place_pack_irrelevant (p : Z) (fs : list (string * ctype))
    (acc : Z * Z * list CField) :
  8 <= p ->
  fold_left (place (Some p)) fs acc = fold_left (place None) fs acc.
Proof.
  intro Hp. revert acc.
  induction fs as [| f fs IH]; intro acc; simpl; [reflexivity |].
  rewrite place_pack_irrelevant by exact Hp. apply IH.
Qed.

End Packing.

(** X3. For every structure built from c_uint32, c_uint64 and arrays of
    them, a [_pack_] of 8 or more changes nothing: offsets, descriptors
    and total size are those of the natural alignment.  In particular the
    [_pack_ = 8] of MorpheusScb and MorpheusHint leaves their layout as
    the field types alone give it. *)
Theorem pack_of_8_is_natural_layout (s : Shared.Structure) (p : Z) :
  8 <= p ->
  Shared.layout (Layouts.with_pack (Some p) s)
    = Shared.layout (Layouts.with_pack None s) /\
  Shared.sizeof (Layouts.with_pack (Some p) s)
    = Shared.sizeof (Layouts.with_pack None s) /\
  (forall name,
      Shared.offset_of (Layouts.with_pack (Some p) s) name
      = Shared.offset_of (Layouts.with_pack None s) name).
Proof.
  intro Hp.
  assert (Hl : Shared.layout (Layouts.with_pack (Some p) s)
               = Shared.layout (Layouts.with_pack None s)).
  { unfold Shared.layout. simpl. now apply fold_place_pack_irrelevant. }
  split; [exact Hl |]. split.
  - unfold Shared.sizeof. now rewrite Hl.
  - intro name.
    unfold Shared.offset_of, Shared.getattr, Shared.descriptors.
    now rewrite Hl.
Qed.

Lemma pack_of_8_is_natural_layout_witness :
  Shared.layout Shared.MorpheusScb
    = Shared.layout (Layouts.with_pack None Shared.MorpheusScb) /\
  Shared.sizeof (Layouts.with_pack None Shared.MorpheusScb) = 128.
Proof.
  destruct (pack_of_8_is_natural_layout Shared.MorpheusScb 8 ltac:(lia))
    as [Hl [Hs _]].
  split; [exact Hl | rewrite <- Hs; reflexivity].
Defined.

(** X4. MorpheusScb has no implicit padding and no field across a cache
    line: each field starts where the previous one ends, the five
    kernel-to-runtime fields fill bytes 0-63 exactly, and the nine
    runtime-to-kernel fields fill bytes 64-127 exactly. *)
Theorem scb_cache_lines_are_separate :
  Shared.contiguous 0 (Shared.descriptors Shared.MorpheusScb) = true /\
  Forall (fun f => Layouts.within_one_line f = true)
    (Shared.descriptors Shared.MorpheusScb) /\
  map Shared.cf_name (firstn 5 (Shared.descriptors Shared.MorpheusScb))
    = ["preempt_seq"; "budget_remaining_ns"; "kernel_pressure_level";
       "worker_state"; "_reserved0"] /\
  Forall (fun f => Layouts.cache_line (Shared.offset f) = 0)
    (firstn 5 (Shared.descriptors Shared.MorpheusScb)) /\
  Forall (fun f => Layouts.cache_line (Shared.offset f) = 1)
    (skipn 5 (Shared.descriptors Shared.MorpheusScb)) /\
  fold_right (fun f acc => Shared.size f + acc) 0
    (firstn 5 (Shared.descriptors Shared.MorpheusScb)) = 64 /\
  fold_right (fun f acc => Shared.size f + acc) 0
    (skipn 5 (Shared.descriptors Shared.MorpheusScb)) = 64.
Proof.
  split; [vm_compute; reflexivity |].
  split; [repeat constructor |].
  split; [vm_compute; reflexivity |].
  split; [repeat constructor |].
  split; [repeat constructor |].
  split; vm_compute; reflexivity.
Qed.

(** ** The helpers in every environment *)

Section HelperShapes.

Context {W : Type} (env : environment W).

Import Asyncio.

(** [morpheus_checkpoint] after a [checkpoint()] that answered true is
    [force_yield] followed by [return True]. *)
Lemma morpheus_checkpoint_then_force_yield (w w1 : W) :
  backend env _morpheus.checkpoint w = (Ok true, w1) ->
  run env morpheus_checkpoint w =
  let '(out, tr, w2) := run env force_yield w1 in
  (match out with Ok _ => Ok true | Err e => Err e end,
   EvCall _morpheus.checkpoint :: tr, w2).
Proof.
  intro Hc. unfold morpheus_checkpoint, force_yield, call, sleep0. simpl.
  rewrite Hc. simpl.
  destruct (backend env _morpheus.acknowledge_yield w1) as [[b | e] w2];
    simpl; [| reflexivity].
  destruct (event_loop env w2) as [[[] | e] w3]; reflexivity.
Qed.

End HelperShapes.

(** X5. In every environment and from every world, morpheus_checkpoint
    makes exactly one of four runs, decided by what the calls answer: after
    a checkpoint() that raises or answers false, the run is [checkpoint]
    alone; after a checkpoint() that answers true, acknowledge_yield() is
    called next, and only if it returns does the task suspend, once, as the
    last step.  So it calls checkpoint() exactly once and first, suspends
    at most once and only directly after an acknowledge_yield() that
    returned, returns False only after the first run, returns True only
    after the run that acknowledged and suspended, and never calls
    enter_critical_section or exit_critical_section. *)
Theorem morpheus_checkpoint_shape {W : Type} (env : environment W) (w : W) :
  run env Asyncio.morpheus_checkpoint w =
  match backend env _morpheus.checkpoint w with
  | (Err e, w1) => (Err e, [EvCall _morpheus.checkpoint], w1)
  | (Ok false, w1) => (Ok false, [EvCall _morpheus.checkpoint], w1)
  | (Ok true, w1) =>
      match backend env _morpheus.acknowledge_yield w1 with
      | (Err e, w2) =>
          (Err e,
           [EvCall _morpheus.checkpoint;
            EvCall _morpheus.acknowledge_yield], w2)
      | (Ok _, w2) =>
          (match fst (event_loop env w2) with
           | Ok _ => Ok true
           | Err e => Err e
           end,
           [EvCall _morpheus.checkpoint;
            EvCall _morpheus.acknowledge_yield; EvSuspend],
           snd (event_loop env w2))
      end
  end.
Proof.
  unfold Asyncio.morpheus_checkpoint, call, sleep0. simpl.
  destruct (backend env _morpheus.checkpoint w) as [[[|] | e] w1]; simpl;
    [| reflexivity | reflexivity].
  destruct (backend env _morpheus.acknowledge_yield w1) as [[b | e] w2];
    simpl; [| reflexivity].
  destruct (event_loop env w2) as [[[] | e] w3]; reflexivity.
Qed.

(** X6. An exception raised by checkpoint() or by acknowledge_yield()
    leaves morpheus_checkpoint unchanged and at once: after a failing
    checkpoint() nothing is acknowledged, and after a failing
    acknowledge_yield() the task does not suspend. *)
Theorem morpheus_checkpoint_propagates_errors
    {W : Type} (env : environment W) (w w1 : W) (e : exn) :
  (backend env _morpheus.checkpoint w = (Err e, w1) ->
   run env Asyncio.morpheus_checkpoint w =
     (Err e, [EvCall _morpheus.checkpoint], w1)) /\
  (forall w2,
     backend env _morpheus.checkpoint w = (Ok true, w1) ->
     backend env _morpheus.acknowledge_yield w1 = (Err e, w2) ->
     run env Asyncio.morpheus_checkpoint w =
       (Err e,
        [EvCall _morpheus.checkpoint; EvCall _morpheus.acknowledge_yield],
        w2)).
Proof.
  split.
  - intro Hc. unfold Asyncio.morpheus_checkpoint, call. simpl.
    rewrite Hc. reflexivity.
  - intros w2 Hc Ha. unfold Asyncio.morpheus_checkpoint, call. simpl.
    rewrite Hc. simpl. rewrite Ha. reflexivity.
Qed.

Lemma morpheus_checkpoint_propagates_errors_witness :
  run (Fixed.env (Fixed.checkpoint_raises (OtherError 7)))
    Asyncio.morpheus_checkpoint tt =
    (Err (OtherError 7), [EvCall _morpheus.checkpoint], tt) /\
  run (Fixed.env (Fixed.acknowledge_raises (OtherError 7)))
    Asyncio.morpheus_checkpoint tt =
    (Err (OtherError 7),
     [EvCall _morpheus.checkpoint; EvCall _morpheus.acknowledge_yield], tt).
Proof.
  split.
  - exact (proj1 (morpheus_checkpoint_propagates_errors
                    (Fixed.env (Fixed.checkpoint_raises (OtherError 7)))
                    tt tt (OtherError 7)) eq_refl).
  - exact (proj2 (morpheus_checkpoint_propagates_errors
                    (Fixed.env (Fixed.acknowledge_raises (OtherError 7)))
                    tt tt (OtherError 7)) tt eq_refl eq_refl).
Defined.

(** X7. After a checkpoint() that answered true, morpheus_checkpoint is
    force_yield followed by returning True: the same calls, the same
    suspension, the same final world, and force_yield's exception if it
    raised. *)
Theorem morpheus_checkpoint_is_checkpoint_then_force_yield
    {W : Type} (env : environment W) (w w1 : W) :
  backend env _morpheus.checkpoint w = (Ok true, w1) ->
  run env Asyncio.morpheus_checkpoint w =
  let '(out, tr, w2) := run env Asyncio.force_yield w1 in
  (match out with Ok _ => Ok true | Err e => Err e end,
   EvCall _morpheus.checkpoint :: tr, w2).
Proof. apply morpheus_checkpoint_then_force_yield. Qed.

Lemma morpheus_checkpoint_is_checkpoint_then_force_yield_witness :
  let w := Script.bound (Script.scb0 4 3 0 10) [] in
  run Script.native_env Asyncio.morpheus_checkpoint w =
  let '(out, tr, w2) := run Script.native_env Asyncio.force_yield w in
  (match out with Ok _ => Ok true | Err e => Err e end,
   EvCall _morpheus.checkpoint :: tr, w2).
Proof.
  intro w.
  exact (morpheus_checkpoint_is_checkpoint_then_force_yield
           Script.native_env w w eq_refl).
Defined.

(** X8. force_yield in every environment: it acknowledges first; if the
    acknowledgement raises, that exception leaves force_yield and the task
    does not suspend; otherwise the task suspends once and force_yield ends
    as the suspension ends (resumed, or cancelled). *)
Theorem force_yield_shape {W : Type} (env : environment W) (w : W) :
  let '(out, tr, w') := run env Asyncio.force_yield w in
  match backend env _morpheus.acknowledge_yield w with
  | (Err e, w1) =>
      out = Err e /\ tr = [EvCall _morpheus.acknowledge_yield] /\ w' = w1
  | (Ok _, w1) =>
      out = fst (event_loop env w1) /\
      tr = [EvCall _morpheus.acknowledge_yield; EvSuspend] /\
      w' = snd (event_loop env w1)
  end.
Proof.
  unfold Asyncio.force_yield, call, sleep0. simpl.
  destruct (backend env _morpheus.acknowledge_yield w) as [[b | e] w1];
    simpl.
  - destruct (event_loop env w1) as [[[] | e] w2]; simpl;
      repeat split; reflexivity.
  - repeat split; reflexivity.
Qed.

(** ** The critical-section scope as a try/finally *)

(** X9. Under the asynccontextmanager protocol, [async with
    morpheus_critical(): body] runs exactly as
    [enter_critical_section(); try: body finally: exit_critical_section()]:
    same outcome, same calls and suspensions, same final world, for every
    body, environment and world. *)
Theorem critical_scope_is_try_finally
    {W : Type} (env : environment W) (body : coro unit) (w : W) :
  run env (async_with Asyncio.morpheus_critical body) w =
  run env
    (bind (call _morpheus.enter_critical_section)
       (fun _ =>
          try_finally body (call _morpheus.exit_critical_section)))
    w.
Proof.
  unfold async_with, Asyncio.morpheus_critical. cbn [cm_enter cm_exit].
  rewrite !run_bind, !(run_call env _morpheus.enter_critical_section).
  destruct (backend env _morpheus.enter_critical_section w)
    as [[[] | e] w1]; cbn [fst snd]; [| reflexivity].
  rewrite run_with_body, run_try_finally.
  destruct (run env body w1) as [[out trb] w2].
  rewrite run_try_finally, run_of_result,
    (run_call env _morpheus.exit_critical_section).
  reflexivity.
Qed.

(** X10. When enter_critical_section() raises, the scope is never entered:
    the body does not run (none of its calls or suspensions happen),
    exit_critical_section() is not called, and the exception leaves the
    [async with] statement. *)
Theorem critical_scope_not_entered_on_error
    {W : Type} (env : environment W) (body : coro unit) (w w1 : W)
    (e : exn) :
  backend env _morpheus.enter_critical_section w = (Err e, w1) ->
  run env (async_with Asyncio.morpheus_critical body) w =
  (Err e, [EvCall _morpheus.enter_critical_section], w1).
Proof. apply critical_scope_entry_raises. Qed.

Lemma critical_scope_not_entered_on_error_witness :
  run (Fixed.env (Fixed.enter_raises (OtherError 3)))
    (async_with Asyncio.morpheus_critical
       (bind Asyncio.force_yield (fun _ => Raise (OtherError 4)))) tt =
  (Err (OtherError 3), [EvCall _morpheus.enter_critical_section], tt).
Proof.
  exact (critical_scope_not_entered_on_error
           (Fixed.env (Fixed.enter_raises (OtherError 3))) _ tt tt
           (OtherError 3) eq_refl).
Defined.

(** ** Pressure thresholds and out-of-range pressure *)

Section Pressure.

Context {W : Type} (env : environment W).

Lemma is_kernel_pressured_run (threshold : Z) (w : W) :
  run env (Asyncio.is_kernel_pressured threshold) w =
  (match fst (backend env _morpheus.pressure_level w) with
   | Ok None => Ok false
   | Ok (Some l) => Ok (l >? threshold)
   | Err e => Err e
   end,
   [EvCall _morpheus.pressure_level],
   snd (backend env _morpheus.pressure_level w)).
Proof.
  unfold Asyncio.is_kernel_pressured, call. simpl.
  destruct (backend env _morpheus.pressure_level w) as [[[l |] | e] w1];
    reflexivity.
Qed.

End Pressure.

(** X11. is_kernel_pressured is antitone in its threshold: in one and the
    same world, if it answers True for a threshold it answers True for
    every lower one, and if it answers False for a threshold it answers
    False for every higher one. *)
Theorem is_kernel_pressured_antitone
    {W : Type} (env : environment W) (low high : Z) (w : W) :
  low <= high ->
  (fst (fst (run env (Asyncio.is_kernel_pressured high) w)) = Ok true ->
   fst (fst (run env (Asyncio.is_kernel_pressured low) w)) = Ok true) /\
  (fst (fst (run env (Asyncio.is_kernel_pressured low) w)) = Ok false ->
   fst (fst (run env (Asyncio.is_kernel_pressured high) w)) = Ok false).
Proof.
  intro Hle. rewrite !is_kernel_pressured_run. cbn [fst].
  destruct (fst (backend env _morpheus.pressure_level w)) as [[l |] | e].
  - destruct (Z.gtb_spec l high) as [Hh | Hh],
      (Z.gtb_spec l low) as [Hl | Hl];
      split; intro Hr; try reflexivity; try discriminate; lia.
  - split; intro Hr; [discriminate | reflexivity].
  - split; discriminate.
Qed.

Lemma is_kernel_pressured_antitone_witness :
  let w := Script.bound (Script.scb0 0 0 0 60) [] in
  fst (fst (run Script.native_env (Asyncio.is_kernel_pressured 50) w))
    = Ok true /\
  fst (fst (run Script.native_env (Asyncio.is_kernel_pressured 10) w))
    = Ok true.
Proof.
  intro w. split; [reflexivity |].
  exact (proj1 (is_kernel_pressured_antitone Script.native_env 10 50 w
                  ltac:(lia)) eq_refl).
Defined.

(** X12. The pacer does not clamp the pressure it reads: with
    min_interval < max_interval, a negative pressure gives an interval
    above max_interval, and a pressure of 100 or more gives an interval of
    at most min_interval, below it once the pressure exceeds 100 by
    enough, and zero or negative for large pressures. *)
Theorem interval_outside_pressure_range
    (self : Asyncio.AdaptiveCheckpointer) (p : Z) :
  Asyncio.min_interval self < Asyncio.max_interval self ->
  (p < 0 -> Asyncio.max_interval self < Asyncio.interval self p) /\
  (100 <= p -> Asyncio.interval self p <= Asyncio.min_interval self) /\
  (100 <= (Asyncio.max_interval self - Asyncio.min_interval self)
          * (p - 100) ->
   Asyncio.interval self p < Asyncio.min_interval self) /\
  (100 * Asyncio.max_interval self
   <= (Asyncio.max_interval self - Asyncio.min_interval self) * p ->
   Asyncio.interval self p <= 0).
Proof.
  intro Hmm. unfold Asyncio.interval.
  set (d := Asyncio.max_interval self - Asyncio.min_interval self).
  assert (Hd : 0 < d) by (unfold d; lia).
  pose proof (Z.div_mod (d * p) 100 ltac:(lia)) as Hdm.
  pose proof (Z.mod_pos_bound (d * p) 100 ltac:(lia)) as Hb.
  repeat split; intro H; nia.
Qed.

Lemma interval_outside_pressure_range_witness :
  10000 < Asyncio.interval (Asyncio.__init__ 100 10000) (-1) /\
  Asyncio.interval (Asyncio.__init__ 100 10000) 101 < 100 /\
  Asyncio.interval (Asyncio.__init__ 100 10000) 200 <= 0.
Proof.
  destruct (interval_outside_pressure_range (Asyncio.__init__ 100 10000)
              (-1) ltac:(simpl; lia)) as [Hneg _].
  destruct (interval_outside_pressure_range (Asyncio.__init__ 100 10000)
              101 ltac:(simpl; lia)) as [_ [_ [Hlow _]]].
  destruct (interval_outside_pressure_range (Asyncio.__init__ 100 10000)
              200 ltac:(simpl; lia)) as [_ [_ [_ Hzero]]].
  split; [apply Hneg; lia |].
  split; [apply Hlow; simpl; lia | apply Hzero; simpl; lia].
Defined.

(** ** The pacer swept over a loop *)

Section Sweep.

Context {W : Type} (env : environment W).

Import Asyncio Usage.

(** One step of the sweep. *)
Lemma should_check_sweep_step (n : nat) (iteration : Z)
    (self : AdaptiveCheckpointer) (level : option Z) (w : W) :
  backend env _morpheus.pressure_level w = (Ok level, w) ->
  run env (should_check_sweep (S n) iteration self) w =
  let r := should_check_answer self iteration (or_0 level) in
  let '(out, tr, w2) :=
    run env (should_check_sweep n (iteration + 1) (snd r)) w in
  (match out with
   | Ok rest =>
       Ok ((if fst r then [iteration] else []) ++ fst rest, snd rest)
   | Err e => Err e
   end,
   EvCall _morpheus.pressure_level :: tr, w2).
Proof.
  intro Hp. cbn [should_check_sweep].
  rewrite run_bind, (should_check_run env self iteration level w w Hp).
  cbv zeta. rewrite run_bind.
  destruct (run env
              (should_check_sweep n (iteration + 1)
                 (snd (should_check_answer self iteration (or_0 level)))) w)
    as [[[rest | e] tr] w2]; cbn; [| reflexivity].
  rewrite app_nil_r. reflexivity.
Qed.

Lemma fires_at_spec (ival i last : Z) :
  1 <= ival ->
  cursor_in_step ival i last ->
  (i - last >=? ival) = fires_at ival i.
Proof.
  intros Hi [Hl [Hm Hpos]]. unfold fires_at.
  destruct Hpos as [[-> ->] | Hin].
  - change (0 - 0) with 0.
    destruct (Z.geb_spec 0 ival); [lia | reflexivity].
  - apply Z.mod_divide in Hm; [| lia]. destruct Hm as [q Hq].
    assert (Hmod : i mod ival = (i - last) mod ival).
    { replace i with ((i - last) + q * ival) at 1 by lia.
      apply Z_mod_plus_full. }
    destruct (Z.geb_spec (i - last) ival) as [Hge | Hlt].
    + assert (Heq : i - last = ival) by lia.
      rewrite Hmod, Heq, Z_mod_same_full.
      destruct (Z.ltb_spec 0 i); [reflexivity | lia].
    + rewrite Hmod, Z.mod_small by lia.
      destruct (Z.eqb_spec (i - last) 0); [lia |].
      now rewrite andb_false_r.
Qed.

Lemma cursor_in_step_next (ival i last : Z) :
  1 <= ival ->
  cursor_in_step ival i last ->
  cursor_in_step ival (i + 1)
    (if i - last >=? ival then i else last).
Proof.
  intros Hi [Hl [Hm Hpos]].
  destruct (Z.geb_spec (i - last) ival) as [Hge | Hlt].
  - destruct Hpos as [[-> ->] | Hin]; [lia |].
    assert (Heq : i = last + ival) by lia.
    split; [lia |]. split; [| right; lia].
    subst i. rewrite Z.add_mod, Hm, Z_mod_same_full by lia. reflexivity.
  - split; [exact Hl |]. split; [exact Hm |]. right.
    destruct Hpos as [[-> ->] | Hin]; lia.
Qed.

Lemma should_check_sweep_run (n : nat) :
  forall (i : Z) (self : AdaptiveCheckpointer) (level : option Z) (w : W),
    backend env _morpheus.pressure_level w = (Ok level, w) ->
    1 <= interval self (or_0 level) ->
    cursor_in_step (interval self (or_0 level)) i (_last_check self) ->
    exists self',
      run env (should_check_sweep n i self) w =
        (Ok (filter (fires_at (interval self (or_0 level)))
               (iterations i n), self'),
         repeat (EvCall _morpheus.pressure_level) n, w) /\
      min_interval self' = min_interval self /\
      max_interval self' = max_interval self.
Proof.
  induction n as [| n IH]; intros i self level w Hp Hi Hc.
  - exists self. repeat split; reflexivity.
  - rewrite (should_check_sweep_step n i self level w Hp). cbv zeta.
    unfold should_check_answer.
    pose proof (fires_at_spec _ i _ Hi Hc) as Hf.
    pose proof (cursor_in_step_next _ i _ Hi Hc) as Hnext.
    set (ival := interval self (or_0 level)) in *.
    destruct (i - _last_check self >=? ival) eqn:Hge.
    + cbn [fst snd].
      set (self1 := {| min_interval := min_interval self;
                       max_interval := max_interval self;
                       _last_check := i |}).
      assert (Hival : interval self1 (or_0 level) = ival) by reflexivity.
      destruct (IH (i + 1) self1 level w Hp
                  ltac:(rewrite Hival; exact Hi)
                  ltac:(rewrite Hival; exact Hnext))
        as [self' [Hrun [Hmin Hmax]]].
      rewrite Hrun, Hival. exists self'. cbn [iterations filter].
      rewrite <- Hf. cbn [fst snd app repeat].
      repeat split; assumption.
    + cbn [fst snd].
      destruct (IH (i + 1) self level w Hp Hi Hnext)
        as [self' [Hrun [Hmin Hmax]]].
      fold ival in Hrun. rewrite Hrun. exists self'.
      cbn [iterations filter]. rewrite <- Hf. cbn [fst snd app repeat].
      repeat split; assumption.
Qed.

End Sweep.

(** X13. Swept over the iterations 0, 1, ..., n-1 of a loop from a fresh
    object, under a pressure reading that does not change and gives an
    interval of at least 1, should_check answers True exactly at the
    positive multiples of the interval: never at iteration 0, and then
    once every interval iterations.  It reads the pressure once per
    iteration and never changes min_interval or max_interval. *)
Theorem pacer_fires_at_multiples_of_interval
    {W : Type} (env : environment W) (n : nat)
    (min_interval max_interval : Z) (level : option Z) (w : W) :
  let self := Asyncio.__init__ min_interval max_interval in
  let ival := Asyncio.interval self (Asyncio.or_0 level) in
  backend env _morpheus.pressure_level w = (Ok level, w) ->
  1 <= ival ->
  exists self',
    run env (Usage.should_check_sweep n 0 self) w =
      (Ok (filter (Usage.fires_at ival) (Usage.iterations 0 n), self'),
       repeat (EvCall _morpheus.pressure_level) n, w) /\
    Asyncio.min_interval self' = min_interval /\
    Asyncio.max_interval self' = max_interval.
Proof.
  intros self ival Hp Hi.
  apply (should_check_sweep_run env n 0 self level w Hp Hi).
  split; [simpl; lia |]. split; [apply Z.mod_0_l; unfold ival in Hi |- *; lia |].
  left. split; reflexivity.
Qed.

Lemma pacer_fires_at_multiples_of_interval_witness :
  let w := Script.bound (Script.scb0 0 0 0 100) [] in
  exists self',
    run Script.native_env
      (Usage.should_check_sweep 350 0 (Asyncio.__init__ 100 10000)) w =
      (Ok ([100; 200; 300], self'),
       repeat (EvCall _morpheus.pressure_level) 350, w).
Proof.
  intro w.
  destruct (pacer_fires_at_multiples_of_interval Script.native_env 350
              100 10000 (Some 100) w eq_refl ltac:(vm_compute; discriminate))
    as [self' [Hrun _]].
  exists self'. exact Hrun.
Defined.

(** ** Example callers *)

Lemma occurrences_app (e : event) (a b : list event) :
  occurrences e (a ++ b) = (occurrences e a + occurrences e b)%nat.
Proof. unfold occurrences. now rewrite filter_app, length_app. Qed.

Lemma occurrences_cons (e x : event) (a : list event) :
  occurrences e (x :: a) =
  ((if event_eqb e x then 1 else 0) + occurrences e a)%nat.
Proof. unfold occurrences. simpl. destruct (event_eqb e x); reflexivity. Qed.

Section Work.

Context {W : Type} (env : environment W).

Import Usage.

Lemma total_of_iterations (n : nat) (first : Z) :
  2 * total_of (iterations first n)
  = Z.of_nat n * (2 * first + Z.of_nat n - 1).
Proof.
  revert first. induction n as [| n IH]; intro first.
  - reflexivity.
  - cbn [iterations total_of fold_right]. fold (total_of (iterations (first + 1) n)).
    specialize (IH (first + 1)). lia.
Qed.

Lemma work_loop_run (n : nat) :
  (forall v, fst (event_loop env v) = Ok tt) ->
  forall (i total : Z) (w : W),
  exists w',
    run env (work_loop n i total) w =
    (Ok (total + total_of (iterations i n)),
     repeat EvSuspend
       (List.length (filter (fun j => j mod 100 =? 0) (iterations i n))),
     w').
Proof.
  intro Hloop. induction n as [| n IH]; intros i total w.
  - exists w. simpl. now rewrite Z.add_0_r.
  - cbn [work_loop iterations filter total_of fold_right].
    fold (total_of (iterations (i + 1) n)).
    rewrite run_bind.
    destruct (i mod 100 =? 0).
    + rewrite run_sleep0, Hloop.
      destruct (IH (i + 1) (total + i) (snd (event_loop env w)))
        as [w' Hrun].
      rewrite Hrun. exists w'. cbn [List.length repeat app].
      f_equal. f_equal. f_equal. lia.
    + cbn [run].
      destruct (IH (i + 1) (total + i) w) as [w' Hrun].
      rewrite Hrun. exists w'. cbn [app].
      f_equal. f_equal. f_equal. lia.
Qed.

End Work.

(** X14. The FastAPI example's [work] suspends at i = 0, 100, 200, ...:
    under an event loop that always resumes it, the coroutine suspends
    exactly 100 times, calls no Morpheus method, and returns the total
    49995000 (the sum of 0..9999); a loop of n iterations returns
    n(n-1)/2.  If the task is cancelled at its first suspension, which
    happens in the very first iteration, the exception leaves [work] and
    no total is returned. *)
Theorem fastapi_work_total_and_suspensions
    {W : Type} (env : environment W) (w : W) :
  ((forall v, fst (event_loop env v) = Ok tt) ->
   (exists w',
      run env Usage.work w = (Ok 49995000, repeat EvSuspend 100, w')) /\
   (forall n : nat,
      exists w',
        fst (run env (Usage.work_loop n 0 0) w) =
        (Ok (Z.of_nat n * (Z.of_nat n - 1) / 2),
         repeat EvSuspend
           (List.length (filter (fun j => j mod 100 =? 0)
                           (Usage.iterations 0 n)))) /\
        snd (run env (Usage.work_loop n 0 0) w) = w')) /\
  (forall e w1,
     event_loop env w = (Err e, w1) ->
     run env Usage.work w = (Err e, [EvSuspend], w1)).
Proof.
  split.
  - intro Hloop. split.
    + destruct (work_loop_run env (Z.to_nat 10000) Hloop 0 0 w) as [w' Hrun].
      exists w'. unfold Usage.work. rewrite Hrun.
      pose proof (total_of_iterations (Z.to_nat 10000) 0) as Hsum.
      rewrite Z2Nat.id in Hsum by lia.
      replace (0 + Usage.total_of (Usage.iterations 0 (Z.to_nat 10000)))
        with 49995000 by lia.
      replace (List.length
                 (filter (fun j => j mod 100 =? 0)
                    (Usage.iterations 0 (Z.to_nat 10000))))
        with 100%nat by (vm_compute; reflexivity).
      reflexivity.
    + intro n. destruct (work_loop_run env n Hloop 0 0 w) as [w' Hrun].
      exists w'. rewrite Hrun. split; [| reflexivity].
      cbn [fst].
      pose proof (total_of_iterations n 0) as Hsum.
      replace (0 + Usage.total_of (Usage.iterations 0 n))
        with (Z.of_nat n * (Z.of_nat n - 1) / 2);
        [reflexivity | symmetry; apply Z.div_unique_exact; lia].
  - intros e w1 Hc. unfold Usage.work.
    change (Z.to_nat 10000) with (S (Z.to_nat 9999)).
    cbn [Usage.work_loop]. change (0 mod 100 =? 0) with true. cbv iota.
    rewrite run_bind, run_sleep0, Hc. reflexivity.
Qed.

Lemma fastapi_work_total_and_suspensions_witness :
  (exists w',
     run (Fixed.env (Fixed.hinted 0)) Usage.work tt =
       (Ok 49995000, repeat EvSuspend 100, w')) /\
  run Script.native_env Usage.work
    (Script.unbound [Err CancelledError]) =
    (Err CancelledError, [EvSuspend], Script.unbound []).
Proof.
  split.
  - exact (proj1 (proj1 (fastapi_work_total_and_suspensions
                           (Fixed.env (Fixed.hinted 0)) tt)
                    (fun _ => eq_refl))).
  - exact (proj2 (fastapi_work_total_and_suspensions Script.native_env
                    (Script.unbound [Err CancelledError]))
             CancelledError (Script.unbound []) eq_refl).
Defined.

Section Batch.

Context {W : Type} (env : environment W).

Import Asyncio Usage.

Lemma batch_loop_run (items : list Z) :
  answers_queries env ->
  forall (idx : Z) (acc : list processed_item) (w : W),
  exists tr w',
    run env (batch_loop items idx acc) w =
      (Ok (acc ++ map (fun x => {| item := x; processed := true;
                                   value := x * 2 |}) items),
       tr, w') /\
    occurrences (EvCall _morpheus.pressure_level) tr = List.length items /\
    occurrences EvSuspend tr = 0%nat /\
    (occurrences (EvCall _morpheus.checkpoint) tr <= List.length items)%nat.
Proof.
  intros [Hpl Hcp].
  induction items as [| x items IH]; intros idx acc w.
  - exists [], w. simpl. rewrite app_nil_r. repeat split; reflexivity || lia.
  - cbn [batch_loop]. rewrite run_bind, (run_call env _morpheus.pressure_level).
    destruct (Hpl w) as [l Hl]. rewrite Hl. cbv zeta.
    set (w1 := snd (backend env _morpheus.pressure_level w)).
    rewrite run_bind.
    destruct (idx mod checkpoint_interval (or_0 l) =? 0).
    + rewrite run_bind, (run_call env _morpheus.checkpoint).
      destruct (Hcp w1) as [b Hb]. rewrite Hb. cbn [run].
      destruct (IH (idx + 1)
                  (acc ++ [{| item := x; processed := true;
                              value := x * 2 |}])
                  (snd (backend env _morpheus.checkpoint w1)))
        as [tr [w' [Hrun [Ho [Hs Hc]]]]].
      rewrite Hrun. eexists _, w'. split.
      * rewrite <- app_assoc. reflexivity.
      * cbn [app].
        repeat (rewrite occurrences_cons || rewrite occurrences_app).
        cbn [event_eqb _morpheus.method_eqb List.length].
        change (occurrences EvSuspend []) with 0%nat.
        change (occurrences (EvCall _morpheus.pressure_level) [])
          with 0%nat.
        change (occurrences (EvCall _morpheus.checkpoint) []) with 0%nat.
        repeat split; lia.
    + cbn [run].
      destruct (IH (idx + 1)
                  (acc ++ [{| item := x; processed := true;
                              value := x * 2 |}]) w1)
        as [tr [w' [Hrun [Ho [Hs Hc]]]]].
      rewrite Hrun. eexists _, w'. split.
      * rewrite <- app_assoc. reflexivity.
      * cbn [app].
        repeat (rewrite occurrences_cons || rewrite occurrences_app).
        cbn [event_eqb _morpheus.method_eqb List.length].
        change (occurrences EvSuspend []) with 0%nat.
        change (occurrences (EvCall _morpheus.pressure_level) [])
          with 0%nat.
        change (occurrences (EvCall _morpheus.checkpoint) []) with 0%nat.
        repeat split; lia.
Qed.

End Batch.

(** X15. batch_process, over any list of integers and whatever the
    pressure readings and checkpoint answers are (as long as those calls
    return): it reports every item in order with its doubled value, the
    count equals the length of the input, it reads the pressure exactly
    once per item, calls checkpoint() at most once per item and never
    suspends. *)
Theorem batch_process_processes_every_item
    {W : Type} (env : environment W) (items : list Z) (w : W) :
  Usage.answers_queries env ->
  exists tr w',
    run env (Usage.batch_process items) w =
      (Ok {| Usage.processed_count := Z.of_nat (List.length items);
             Usage.results :=
               map (fun x => {| Usage.item := x;
                                Usage.processed := true;
                                Usage.value := x * 2 |}) items |},
       tr, w') /\
    occurrences (EvCall _morpheus.pressure_level) tr = List.length items /\
    (occurrences (EvCall _morpheus.checkpoint) tr <= List.length items)%nat /\
    occurrences EvSuspend tr = 0%nat.
Proof.
  intro Hq.
  destruct (batch_loop_run env items Hq 0 [] w)
    as [tr [w' [Hrun [Hp [Hs Hc]]]]].
  exists tr, w'. unfold Usage.batch_process.
  rewrite run_bind, Hrun. cbn [app run].
  rewrite length_map, app_nil_r.
  repeat split; assumption.
Qed.

Lemma batch_process_processes_every_item_witness :
  exists tr w',
    run (Fixed.env (Fixed.hinted 40)) (Usage.batch_process [3; -1; 0]) tt =
      (Ok {| Usage.processed_count := 3;
             Usage.results :=
               [{| Usage.item := 3; Usage.processed := true;
                   Usage.value := 6 |};
                {| Usage.item := -1; Usage.processed := true;
                   Usage.value := -2 |};
                {| Usage.item := 0; Usage.processed := true;
                   Usage.value := 0 |}] |},
       tr, w') /\
    occurrences (EvCall _morpheus.pressure_level) tr = 3%nat.
Proof.
  destruct (batch_process_processes_every_item
              (Fixed.env (Fixed.hinted 40)) [3; -1; 0] tt
              (conj (fun _ => ex_intro _ _ eq_refl)
                    (fun _ => ex_intro _ _ eq_refl)))
    as [tr [w' [Hrun [Hp _]]]].
  exists tr, w'. split; [exact Hrun | exact Hp].
Defined.

(** X16. The stride batch_process checks at, max(1, 100 - pressure), is at
    least 1 for every pressure reading (so [idx % stride] is never a
    division by zero), at most 100 for a non-negative reading, 100 when
    the pressure is absent or 0 and 1 from pressure 99 up; and whatever
    the pressure, the first item of a batch is followed by a
    checkpoint() call. *)
Theorem batch_process_checkpoint_stride
    {W : Type} (env : environment W) :
  (forall level : option Z,
      let stride := Usage.checkpoint_interval (Asyncio.or_0 level) in
      1 <= stride /\
      (0 <= Asyncio.or_0 level -> stride <= 100) /\
      (99 <= Asyncio.or_0 level -> stride = 1)) /\
  Usage.checkpoint_interval (Asyncio.or_0 None) = 100 /\
  Usage.checkpoint_interval (Asyncio.or_0 (Some 0)) = 100 /\
  (Usage.answers_queries env ->
   forall (x : Z) (items : list Z) (w : W),
   exists tr,
     snd (fst (run env (Usage.batch_process (x :: items)) w)) =
     EvCall _morpheus.pressure_level :: EvCall _morpheus.checkpoint :: tr).
Proof.
  split.
  { intro level. unfold Usage.checkpoint_interval. cbv zeta. lia. }
  split; [reflexivity |]. split; [reflexivity |].
  intros Hq x items w.
  unfold Usage.batch_process. rewrite run_bind.
  cbn [Usage.batch_loop].
  rewrite run_bind, (run_call env _morpheus.pressure_level).
  destruct Hq as [Hpl Hcp].
  destruct (Hpl w) as [l Hl]. rewrite Hl. cbv zeta.
  set (w1 := snd (backend env _morpheus.pressure_level w)).
  rewrite Z.mod_0_l
    by (unfold Usage.checkpoint_interval; lia).
  change (0 =? 0) with true. cbv iota.
  rewrite !run_bind, (run_call env _morpheus.checkpoint).
  destruct (Hcp w1) as [b Hb]. rewrite Hb. cbn [run].
  destruct (batch_loop_run env items (conj Hpl Hcp) (0 + 1)
              ([] ++ [{| Usage.item := x; Usage.processed := true;
                         Usage.value := x * 2 |}])
              (snd (backend env _morpheus.checkpoint w1)))
    as [tr [w' [Hrun _]]].
  rewrite Hrun. cbn. eexists. reflexivity.
Qed.

Lemma batch_process_checkpoint_stride_witness :
  exists tr,
    snd (fst (run (Fixed.env (Fixed.hinted 250))
                (Usage.batch_process [5; 6]) tt)) =
    EvCall _morpheus.pressure_level :: EvCall _morpheus.checkpoint :: tr.
Proof.
  exact (proj2 (proj2 (proj2 (batch_process_checkpoint_stride
                                (Fixed.env (Fixed.hinted 250)))))
           (conj (fun _ => ex_intro _ _ eq_refl)
                 (fun _ => ex_intro _ _ eq_refl)) 5 [6] tt).
Defined.

(** ** The runner *)

Section RunnerFacts.

Import Runner.

Lemma main_cases (sys_argv : list string) (target : target_ending) :
  main sys_argv target =
  match sys_argv with
  | [] => ([], Raised IndexError)
  | _ :: args =>
      match args with
      | [] => ([Print usage], SystemExit 1)
      | first :: rest =>
          if String.eqb first "-m" then
            match rest with
            | [] => ([Print missing_module], SystemExit 1)
            | target_name :: script_args =>
                ([InstallLoop; SetArgv (target_name :: script_args);
                  RunModule target_name],
                 ends_as target)
            end
          else
            ([InstallLoop; SetArgv (first :: rest); RunPath first],
             ends_as target)
      end
  end.
Proof.
  unfold main. destruct sys_argv as [| prog args]; [reflexivity |].
  cbn [skipn].
  destruct args as [| first [| second rest]];
    [reflexivity | |]; cbn; destruct (String.eqb first "-m"); reflexivity.
Qed.

End RunnerFacts.

(** X17. The runner stops before installing the event-loop policy exactly
    when it is given no argument or the single argument "-m".  On these
    paths it sets no sys.argv and runs nothing: with an empty sys.argv it
    raises IndexError while building its argument parser, and otherwise it
    prints one message (the usage line, or the "-m requires a module name"
    line) and exits with status 1. *)
Theorem runner_exits_without_target
    (sys_argv : list string) (target : Runner.target_ending) :
  (~ In Runner.InstallLoop (fst (Runner.main sys_argv target)) <->
   skipn 1 sys_argv = [] \/ skipn 1 sys_argv = ["-m"]) /\
  (sys_argv = [] ->
   Runner.main sys_argv target = ([], Runner.Raised IndexError)) /\
  (sys_argv <> [] -> skipn 1 sys_argv = [] ->
   Runner.main sys_argv target
   = ([Runner.Print Runner.usage], Runner.SystemExit 1)) /\
  (skipn 1 sys_argv = ["-m"] ->
   Runner.main sys_argv target
   = ([Runner.Print Runner.missing_module], Runner.SystemExit 1)).
Proof.
  rewrite main_cases.
  destruct sys_argv as [| prog [| first [| second rest]]]; cbn [skipn].
  - split; [split; [intros _; left; reflexivity |] |].
    + intros _ Hin. cbn in Hin. exact Hin.
    + split; [reflexivity |]. split; [congruence | discriminate].
  - split; [split; [intros _; left; reflexivity |] |].
    + intros _ Hin. cbn in Hin. destruct Hin as [H | []]. discriminate.
    + split; [discriminate |]. split; [reflexivity | discriminate].
  - destruct (String.eqb_spec first "-m") as [-> | Hne].
    + split; [split; [intros _; right; reflexivity |] |].
      * intros _ Hin. cbn in Hin. destruct Hin as [H | []]. discriminate.
      * split; [discriminate |]. split; [discriminate | reflexivity].
    + split; [split |].
      * intro Hn. exfalso. apply Hn. left. reflexivity.
      * intros [H | H]; [discriminate | congruence].
      * split; [discriminate |]. split; [discriminate | congruence].
  - split; [split |].
    + intro Hn. exfalso. apply Hn.
      destruct (String.eqb first "-m"); left; reflexivity.
    + intros [H | H]; discriminate.
    + split; [discriminate |]. split; discriminate.
Qed.

(** X18. Given a target, the runner installs the event-loop policy first,
    then sets sys.argv, then runs the target, and ends as the target ends
    (a return, an exception, or the target's own sys.exit).  The new
    sys.argv is the runner's own arguments with a leading "-m" removed and
    nothing else changed, so the target finds its own name at sys.argv[0]
    followed by its arguments in order; the target runs as a module
    exactly when the first argument was "-m". *)
Theorem runner_hands_arguments_over
    (sys_argv : list string) (target : Runner.target_ending) :
  skipn 1 sys_argv <> [] ->
  skipn 1 sys_argv <> ["-m"] ->
  exists (is_module : bool) (target_name : string)
         (script_args : list string),
    Runner.main sys_argv target =
      ([Runner.InstallLoop;
        Runner.SetArgv (target_name :: script_args);
        if is_module then Runner.RunModule target_name
        else Runner.RunPath target_name],
       match target with
       | Runner.TargetReturned => Runner.Returned
       | Runner.TargetRaised e => Runner.Raised e
       | Runner.TargetExited code => Runner.SystemExit code
       end) /\
    is_module = String.eqb (hd "" (skipn 1 sys_argv)) "-m" /\
    target_name :: script_args =
      (if is_module then skipn 2 sys_argv else skipn 1 sys_argv).
Proof.
  intros Hne Hnm. rewrite main_cases.
  destruct sys_argv as [| prog [| first [| second rest]]];
    cbn [skipn hd] in *; try contradiction.
  - destruct (String.eqb_spec first "-m") as [-> | Hneq];
      [contradiction |].
    exists false, first, []. repeat split; reflexivity.
  - destruct (String.eqb first "-m") eqn:Hm.
    + exists true, second, rest. repeat split; reflexivity.
    + exists false, first, (second :: rest). repeat split; reflexivity.
Qed.

Lemma runner_hands_arguments_over_witness :
  Runner.main
    ["run.py"; "-m"; "celery"; "-A"; "celery_worker"; "worker"]
    (Runner.TargetExited 3) =
  ([Runner.InstallLoop;
    Runner.SetArgv ["celery"; "-A"; "celery_worker"; "worker"];
    Runner.RunModule "celery"],
   Runner.SystemExit 3).
Proof.
  destruct (runner_hands_arguments_over
              ["run.py"; "-m"; "celery"; "-A"; "celery_worker"; "worker"]
              (Runner.TargetExited 3) ltac:(discriminate)
              ltac:(discriminate))
    as [is_module [target_name [script_args [Hmain [Hmod Hargs]]]]].
  rewrite Hmain. subst is_module. cbn in Hargs.
  injection Hargs as -> ->. reflexivity.
Defined.

(** ** The event-loop wrappers *)

Section WrapperFacts.

Import LoopWrapper.

Context {W V : Type} (morpheus : module_object W) (inner : inner_loop W V).

Lemma check_and_reschedule_ok (self : _MorpheusEventLoop) (w w1 w2 : W)
    (b : bool) (h : Handle) :
  morpheus _morpheus.checkpoint w = (Ok b, w1) ->
  call_soon inner w1 = (Ok h, w2) ->
  _check_and_reschedule morpheus inner self w =
  (Ok tt, [LvCheckpoint; LvCallSoon (Ok h)],
   {| _check_handle := Some h |}, w2).
Proof.
  intros Hc Hs. unfold _check_and_reschedule, _schedule_check.
  rewrite Hc, Hs. reflexivity.
Qed.

(** A callback that returned has polled and re-armed. *)
Lemma check_and_reschedule_returned (self self' : _MorpheusEventLoop)
    (w w' : W) (tr : list loop_event) :
  _check_and_reschedule morpheus inner self w = (Ok tt, tr, self', w') ->
  exists h,
    tr = [LvCheckpoint; LvCallSoon (Ok h)] /\
    self' = {| _check_handle := Some h |} /\
    w' = snd (call_soon inner (snd (morpheus _morpheus.checkpoint w))).
Proof.
  unfold _check_and_reschedule, _schedule_check.
  destruct (morpheus _morpheus.checkpoint w) as [[b | e] w1];
    [| discriminate].
  cbn [snd].
  destruct (call_soon inner w1) as [[h | e] w2]; [| discriminate].
  intro H. injection H as <- <- <-. exists h. repeat split; reflexivity.
Qed.

Lemma last_of_tail {A} (x y : A) (l : list A) (d d' : A) :
  last (y :: l) d = last (x :: y :: l) d'.
Proof.
  cbn [last]. revert y. induction l as [| z l IH]; intro y;
    [reflexivity |].
  cbn [last]. apply IH.
Qed.

Lemma callbacks_returned (k : nat) :
  forall (self self' : _MorpheusEventLoop) (w w' : W)
         (tr : list loop_event),
    callbacks morpheus inner k self w = (Ok tt, tr, self', w') ->
    exists hs : list Handle,
      List.length hs = k /\
      tr = flat_map (fun h => [LvCheckpoint; LvCallSoon (Ok h)]) hs /\
      _check_handle self' = last (map Some hs) (_check_handle self).
Proof.
  induction k as [| k IH]; intros self self' w w' tr Hrun.
  - cbn in Hrun. injection Hrun as <- <- <-. exists []. repeat split.
  - cbn [callbacks] in Hrun.
    destruct (_check_and_reschedule morpheus inner self w)
      as [[[r tr1] self1] w1] eqn:Hcb.
    destruct r as [[] | e]; [| discriminate].
    destruct (callbacks morpheus inner k self1 w1)
      as [[[r2 tr2] self2] w2] eqn:Hrest.
    injection Hrun as -> <- <- <-.
    apply check_and_reschedule_returned in Hcb.
    destruct Hcb as [h [-> [-> _]]].
    destruct (IH _ _ _ _ _ Hrest) as [hs [Hlen [-> Hlast]]].
    exists (h :: hs). split; [simpl; now rewrite Hlen |].
    split; [reflexivity |].
    rewrite Hlast. cbn [_check_handle map].
    destruct hs as [| h' hs']; [reflexivity |].
    cbn [map]. apply last_of_tail.
Qed.

Lemma guarded_run_cancels
    (run_inner : _MorpheusEventLoop -> W
                 -> result V * _MorpheusEventLoop * W)
    (self self2 : _MorpheusEventLoop) (w w1 w2 : W) (h0 : Handle)
    (out : result V) :
  call_soon inner w = (Ok h0, w1) ->
  run_inner {| _check_handle := Some h0 |} w1 = (out, self2, w2) ->
  match _check_handle self2 with
  | None =>
      guarded_run inner run_inner self w =
      (out, [LvCallSoon (Ok h0); LvInnerRun],
       {| _check_handle := None |}, w2)
  | Some h =>
      forall w3,
        cancel inner h w2 = (Ok tt, w3) ->
        guarded_run inner run_inner self w =
        (out, [LvCallSoon (Ok h0); LvInnerRun; LvCancel h],
         {| _check_handle := None |}, w3)
  end.
Proof.
  intros Hs Hr. unfold guarded_run, _schedule_check, _cancel_check.
  rewrite Hs, Hr.
  destruct self2 as [[h |]]; cbn [_check_handle].
  - intros w3 Hc. rewrite Hc. reflexivity.
  - reflexivity.
Qed.

Lemma guarded_run_not_started
    (run_inner : _MorpheusEventLoop -> W
                 -> result V * _MorpheusEventLoop * W)
    (self : _MorpheusEventLoop) (w w1 : W) (e : exn) :
  call_soon inner w = (Err e, w1) ->
  guarded_run inner run_inner self w
  = (Err e, [LvCallSoon (Err e)], self, w1).
Proof.
  intro Hs. unfold guarded_run, _schedule_check. rewrite Hs. reflexivity.
Qed.

End WrapperFacts.

(** X19. Each run of the wrapper's callback _check_and_reschedule polls
    checkpoint() once and re-arms itself once, whatever checkpoint()
    answers, and leaves the newest handle in _check_handle: after k runs
    that all returned, the events are k pairs (checkpoint, call_soon) and
    _check_handle holds the handle of the last call_soon.  A run in which
    checkpoint() raises does not re-arm: nothing is scheduled and
    _check_handle keeps the handle that has just been consumed. *)
Theorem check_callback_polls_and_rearms
    {W V : Type} (morpheus : module_object W)
    (inner : LoopWrapper.inner_loop W V) :
  (forall (k : nat) (self self' : LoopWrapper._MorpheusEventLoop)
          (w w' : W) (tr : list LoopWrapper.loop_event),
      LoopWrapper.callbacks morpheus inner k self w
        = (Ok tt, tr, self', w') ->
      exists hs : list LoopWrapper.Handle,
        List.length hs = k /\
        tr = flat_map
               (fun h => [LoopWrapper.LvCheckpoint;
                          LoopWrapper.LvCallSoon (Ok h)]) hs /\
        LoopWrapper._check_handle self'
          = last (map Some hs) (LoopWrapper._check_handle self)) /\
  (forall (self : LoopWrapper._MorpheusEventLoop) (w w1 : W) (e : exn),
      morpheus _morpheus.checkpoint w = (Err e, w1) ->
      LoopWrapper._check_and_reschedule morpheus inner self w
        = (Err e, [LoopWrapper.LvCheckpoint], self, w1)).
Proof.
  split.
  - intro k. apply callbacks_returned.
  - intros self w w1 e Hc. unfold LoopWrapper._check_and_reschedule.
    rewrite Hc. reflexivity.
Qed.

Lemma check_callback_polls_and_rearms_witness :
  let w := {| LoopWrapper.next_handle := 5%nat;
              LoopWrapper.cancelled := [];
              LoopWrapper.checkpoints := 0%nat |} in
  exists hs : list LoopWrapper.Handle,
    List.length hs = 3%nat /\
    snd (fst (fst
      (LoopWrapper.callbacks LoopWrapper.counting_checkpoint
         (LoopWrapper.test_loop 0 (Ok tt)) 3 LoopWrapper.__init__ w)))
      = flat_map
          (fun h => [LoopWrapper.LvCheckpoint;
                     LoopWrapper.LvCallSoon (Ok h)]) hs.
Proof.
  intro w.
  destruct (proj1 (check_callback_polls_and_rearms
                     LoopWrapper.counting_checkpoint
                     (LoopWrapper.test_loop 0 (Ok tt)))
              3%nat LoopWrapper.__init__ _ w _ _ eq_refl)
    as [hs [Hlen [Htr _]]].
  exists hs. split; [exact Hlen | exact Htr].
Defined.

(** X20. run_forever and run_until_complete arm the check, run the inner
    loop and always disarm: whether the inner loop returns or raises, the
    handle found in _check_handle at that point is cancelled,
    _check_handle ends as None, and the inner loop's result or exception
    is passed through unchanged.  If arming fails (call_soon raises), the
    inner loop is not run at all. *)
Theorem wrapper_run_always_disarms
    {W V : Type} (inner : LoopWrapper.inner_loop W V)
    (self : LoopWrapper._MorpheusEventLoop) (w w1 : W) :
  (forall (h0 : LoopWrapper.Handle)
          (self2 : LoopWrapper._MorpheusEventLoop) (w2 : W)
          (out : result V),
      LoopWrapper.call_soon inner w = (Ok h0, w1) ->
      LoopWrapper.run_forever_inner inner
        {| LoopWrapper._check_handle := Some h0 |} w1 = (out, self2, w2) ->
      match LoopWrapper._check_handle self2 with
      | None =>
          LoopWrapper.run_forever inner self w =
          (out, [LoopWrapper.LvCallSoon (Ok h0); LoopWrapper.LvInnerRun],
           {| LoopWrapper._check_handle := None |}, w2)
      | Some h =>
          forall w3,
            LoopWrapper.cancel inner h w2 = (Ok tt, w3) ->
            LoopWrapper.run_forever inner self w =
            (out,
             [LoopWrapper.LvCallSoon (Ok h0); LoopWrapper.LvInnerRun;
              LoopWrapper.LvCancel h],
             {| LoopWrapper._check_handle := None |}, w3)
      end) /\
  (forall (h0 : LoopWrapper.Handle)
          (self2 : LoopWrapper._MorpheusEventLoop) (w2 : W)
          (out : result V),
      LoopWrapper.call_soon inner w = (Ok h0, w1) ->
      LoopWrapper.run_until_complete_inner inner
        {| LoopWrapper._check_handle := Some h0 |} w1 = (out, self2, w2) ->
      match LoopWrapper._check_handle self2 with
      | None =>
          LoopWrapper.run_until_complete inner self w =
          (out, [LoopWrapper.LvCallSoon (Ok h0); LoopWrapper.LvInnerRun],
           {| LoopWrapper._check_handle := None |}, w2)
      | Some h =>
          forall w3,
            LoopWrapper.cancel inner h w2 = (Ok tt, w3) ->
            LoopWrapper.run_until_complete inner self w =
            (out,
             [LoopWrapper.LvCallSoon (Ok h0); LoopWrapper.LvInnerRun;
              LoopWrapper.LvCancel h],
             {| LoopWrapper._check_handle := None |}, w3)
      end) /\
  (forall e : exn,
      LoopWrapper.call_soon inner w = (Err e, w1) ->
      LoopWrapper.run_forever inner self w
        = (Err e, [LoopWrapper.LvCallSoon (Err e)], self, w1) /\
      LoopWrapper.run_until_complete inner self w
        = (Err e, [LoopWrapper.LvCallSoon (Err e)], self, w1)).
Proof.
  split; [| split].
  - intros h0 self2 w2 out. apply guarded_run_cancels.
  - intros h0 self2 w2 out. apply guarded_run_cancels.
  - intros e Hs. split; apply guarded_run_not_started; exact Hs.
Qed.

(** The inner loop runs the callback four times and then raises: the
    wrapper has made five handles (0 to 4), cancels the newest, and lets
    the exception through. *)
Lemma wrapper_run_always_disarms_witness :
  LoopWrapper.run_forever
    (LoopWrapper.test_loop 4 (Err (OtherError 9)))
    LoopWrapper.__init__
    {| LoopWrapper.next_handle := 0%nat;
       LoopWrapper.cancelled := [];
       LoopWrapper.checkpoints := 0%nat |} =
  (Err (OtherError 9),
   [LoopWrapper.LvCallSoon (Ok 0%nat); LoopWrapper.LvInnerRun;
    LoopWrapper.LvCancel 4%nat],
   {| LoopWrapper._check_handle := None |},
   {| LoopWrapper.next_handle := 5%nat;
      LoopWrapper.cancelled := [4%nat];
      LoopWrapper.checkpoints := 4%nat |}).
Proof.
  exact (proj1 (wrapper_run_always_disarms
                  (LoopWrapper.test_loop 4 (Err (OtherError 9)))
                  LoopWrapper.__init__
                  {| LoopWrapper.next_handle := 0%nat;
                     LoopWrapper.cancelled := [];
                     LoopWrapper.checkpoints := 0%nat |}
                  {| LoopWrapper.next_handle := 1%nat;
                     LoopWrapper.cancelled := [];
                     LoopWrapper.checkpoints := 0%nat |})
           0%nat _ _ _ eq_refl eq_refl _ eq_refl).
Defined.

(** X21. One iteration of the older wrapper's _run_once, in every
    environment.  When the check is not due it only delegates to the inner
    loop.  When it is due it moves _last_check to the clock reading before
    anything can fail and polls checkpoint() first; it calls
    acknowledge_yield() exactly when checkpoint() answered true; and it
    runs the inner loop's iteration as its last step, returning what that
    iteration returns, unless checkpoint() or acknowledge_yield() raised,
    in which case that exception leaves _run_once and the inner iteration
    is skipped.  _check_interval never changes. *)
Theorem legacy_run_once_shape
    {T W V : Type} (sub : T -> T -> T) (geb : T -> T -> bool)
    (morpheus : module_object W) (monotonic : W -> T * W)
    (inner_run_once : W -> result V * W)
    (self : LegacyLoop._MorpheusEventLoop) (w : W) :
  let now := fst (monotonic w) in
  let w0 := snd (monotonic w) in
  let checked := {| LegacyLoop._check_interval :=
                      LegacyLoop._check_interval self;
                    LegacyLoop._last_check := now |} in
  LegacyLoop._run_once sub geb morpheus monotonic inner_run_once self w =
  if geb (sub now (LegacyLoop._last_check self))
         (LegacyLoop._check_interval self)
  then
    match morpheus _morpheus.checkpoint w0 with
    | (Err e, w1) =>
        (Err e, [LegacyLoop.Backend _morpheus.checkpoint], checked, w1)
    | (Ok false, w1) =>
        (fst (inner_run_once w1),
         [LegacyLoop.Backend _morpheus.checkpoint; LegacyLoop.InnerRunOnce],
         checked, snd (inner_run_once w1))
    | (Ok true, w1) =>
        match morpheus _morpheus.acknowledge_yield w1 with
        | (Err e, w2) =>
            (Err e,
             [LegacyLoop.Backend _morpheus.checkpoint;
              LegacyLoop.Backend _morpheus.acknowledge_yield],
             checked, w2)
        | (Ok _, w2) =>
            (fst (inner_run_once w2),
             [LegacyLoop.Backend _morpheus.checkpoint;
              LegacyLoop.Backend _morpheus.acknowledge_yield;
              LegacyLoop.InnerRunOnce],
             checked, snd (inner_run_once w2))
        end
    end
  else
    (fst (inner_run_once w0), [LegacyLoop.InnerRunOnce], self,
     snd (inner_run_once w0)).
Proof.
  intros now w0 checked.
  unfold LegacyLoop._run_once, LegacyLoop.delegate.
  subst now w0 checked.
  destruct (monotonic w) as [now w0]. cbn [fst snd].
  destruct (geb (sub now (LegacyLoop._last_check self))
              (LegacyLoop._check_interval self)).
  - destruct (morpheus _morpheus.checkpoint w0) as [[[|] | e] w1].
    + destruct (morpheus _morpheus.acknowledge_yield w1) as [[a | e] w2].
      * destruct (inner_run_once w2) as [r w3]. reflexivity.
      * reflexivity.
    + destruct (inner_run_once w1) as [r w3]. reflexivity.
    + reflexivity.
  - destruct (inner_run_once w0) as [r w3]. reflexivity.
Qed.

(** ** The pacer with a degenerate interval *)

Section DegenerateSweep.

Context {W : Type} (env : environment W).

Import Asyncio Usage.

Lemma should_check_sweep_all (n : nat) :
  forall (i : Z) (self : AdaptiveCheckpointer) (level : option Z) (w : W),
    backend env _morpheus.pressure_level w = (Ok level, w) ->
    interval self (or_0 level) <= 0 ->
    _last_check self <= i ->
    exists self',
      run env (should_check_sweep n i self) w =
        (Ok (iterations i n, self'),
         repeat (EvCall _morpheus.pressure_level) n, w).
Proof.
  induction n as [| n IH]; intros i self level w Hp Hi Hl.
  - exists self. reflexivity.
  - rewrite (should_check_sweep_step env n i self level w Hp). cbv zeta.
    unfold should_check_answer.
    destruct (Z.geb_spec (i - _last_check self)
                (interval self (or_0 level))) as [Hge | Hlt]; [| lia].
    cbn [fst snd].
    set (self1 := {| min_interval := min_interval self;
                     max_interval := max_interval self;
                     _last_check := i |}).
    destruct (IH (i + 1) self1 level w Hp Hi ltac:(simpl; lia))
      as [self' Hrun].
    rewrite Hrun. exists self'. reflexivity.
Qed.

End DegenerateSweep.

(** X22. When the interval the pacer computes is zero or negative (a
    pressure reading far above 100, or max_interval <= 0), should_check
    answers True at every iteration of a loop that starts at or after the
    cursor, iteration 0 of a fresh object included: the pacer no longer
    spaces the checkpoints at all. *)
Theorem pacer_fires_always_on_nonpositive_interval
    {W : Type} (env : environment W) (n : nat) (first : Z)
    (self : Asyncio.AdaptiveCheckpointer) (level : option Z) (w : W) :
  backend env _morpheus.pressure_level w = (Ok level, w) ->
  Asyncio.interval self (Asyncio.or_0 level) <= 0 ->
  Asyncio._last_check self <= first ->
  exists self',
    run env (Usage.should_check_sweep n first self) w =
      (Ok (Usage.iterations first n, self'),
       repeat (EvCall _morpheus.pressure_level) n, w).
Proof.
  intros Hp Hi Hl.
  exact (should_check_sweep_all env n first self level w Hp Hi Hl).
Qed.

Lemma pacer_fires_always_on_nonpositive_interval_witness :
  let w := Script.bound (Script.scb0 0 0 0 200) [] in
  exists self',
    run Script.native_env
      (Usage.should_check_sweep 4 0 (Asyncio.__init__ 100 10000)) w =
      (Ok ([0; 1; 2; 3], self'),
       repeat (EvCall _morpheus.pressure_level) 4, w).
Proof.
  intro w.
  exact (pacer_fires_always_on_nonpositive_interval Script.native_env 4 0
           (Asyncio.__init__ 100 10000) (Some 200) w eq_refl
           ltac:(vm_compute; discriminate) ltac:(simpl; lia)).
Defined.
